(** * CDE-Project: the car-listing cleaning pipeline

    A shallow embedding of the two scripts of the repository,
    [pro3_st.py] (the dashboard: engine-capacity normalisation, numeric
    coercion, outlier filter, brand extraction, brand/year filter) and
    [load_to_db.py] (column-name normalisation, [fillna(0)], the insert
    loop), followed by the properties the specification states about them.

    Modelling conventions.
    - A Python [str] is a list of code points.  The model holds the code
      points below U+0100, the 256 values of [ascii]; on them
      [str.isdigit], [str.isspace], [str.lower] and the regular
      expression class [\w] are finite tables, written out below.
    - A Python exception is the [Raise] branch of [result].
    - A cell of a [float64] or [int64] column is modelled by its exact
      value ([f64]): not-a-number, an infinity or a rational.  The scripts
      only compare such cells with integer literals, and a comparison
      with not-a-number is false.
    - A DataFrame is the list of its rows, in index order.  The dtype of
      a column is read off its cells, the way [read_csv] assigns it. *)

From Stdlib Require Import List String Ascii Bool ZArith NArith QArith Lia.
From Stdlib Require Import Permutation Sorted.
Import ListNotations.

Set Implicit Arguments.

Close Scope Q_scope.
Open Scope Z_scope.

(** ** Exceptions *)

Inductive exn : Type :=
| ValueError
| OverflowError
| AttributeError.

Inductive result (A : Type) : Type :=
| Ret (a : A)
| Raise (e : exn).

Arguments Ret {A} a.
Arguments Raise {A} e.

Definition bind {A B : Type} (m : result A) (k : A -> result B) : result B :=
  match m with
  | Ret a => k a
  | Raise e => Raise e
  end.

Notation "x <- m ;; k" := (bind m (fun x => k))
  (at level 61, m at next level, right associativity).

(** [mapM f l]: [f] applied to the elements of [l] from the left; the
    first exception aborts the traversal. *)
Fixpoint mapM {A B : Type} (f : A -> result B) (l : list A) : result (list B) :=
  match l with
  | [] => Ret []
  | a :: l' => b <- f a ;; bs <- mapM f l' ;; Ret (b :: bs)
  end.

(** ** Python strings over the code points below U+0100 *)

Module PyStr.

Definition str : Type := list ascii.

(** A literal of the script, from a Rocq string of 7-bit characters. *)
Definition lit (s : string) : str := list_ascii_of_string s.

Definition code (c : ascii) : N := N_of_ascii c.

Definition between (lo hi : N) (c : ascii) : bool :=
  (lo <=? code c)%N && (code c <=? hi)%N.

(** [c.isdecimal()]: the characters [int()] reads as digits, '0'..'9'. *)
Definition isdecimal (c : ascii) : bool := between 48 57 c.

(** [c.isdigit()]: the decimal digits and the superscripts U+00B2,
    U+00B3 and U+00B9. *)
Definition isdigit (c : ascii) : bool :=
  isdecimal c || (code c =? 178)%N || (code c =? 179)%N || (code c =? 185)%N.

(** [c.isspace()]: TAB..CR, FS..US, space, NEL and the no-break space. *)
Definition isspace (c : ascii) : bool :=
  between 9 13 c || between 28 32 c || (code c =? 133)%N || (code c =? 160)%N.

(** The class [\w] of [re] on [str] patterns: [c.isalnum()] or '_'. *)
Definition isword (c : ascii) : bool :=
  between 48 57 c || between 65 90 c || (code c =? 95)%N || between 97 122 c
  || (code c =? 170)%N || between 178 179 c || (code c =? 181)%N
  || between 185 186 c || between 188 190 c
  || between 192 214 c || between 216 246 c || between 248 255 c.

(** [c.lower()]: 'A'..'Z' and U+00C0..U+00DE except the multiplication
    sign U+00D7 move up by 32. *)
Definition lower_char (c : ascii) : ascii :=
  if between 65 90 c || (between 192 222 c && negb (code c =? 215)%N)
  then ascii_of_N (code c + 32)
  else c.

(** [s.lower()] *)
Definition lower (s : str) : str := map lower_char s.

(** [s.replace(old, new)] for a pattern [old] of one character. *)
Definition replace (old : ascii) (new : str) (s : str) : str :=
  flat_map (fun c => if Ascii.eqb c old then new else [c]) s.

Fixpoint startswith (s p : str) {struct p} : bool :=
  match p, s with
  | [], _ => true
  | _ :: _, [] => false
  | a :: p', b :: s' => Ascii.eqb a b && startswith s' p'
  end.

(** [p in s]: [p] occurs in [s] as a substring. *)
Fixpoint contains (p s : str) : bool :=
  startswith s p || match s with
                    | [] => false
                    | _ :: s' => contains p s'
                    end.

(** The value of a decimal digit. *)
Definition digit_value (c : ascii) : Z := Z.of_N (code c) - 48.

(** The limit CPython 3.11 puts on the digits [int()] converts
    ([sys.int_info.default_max_str_digits]). *)
Definition int_max_str_digits : nat := 4300.

(** [int(s)] on the strings line 33 of [pro3_st.py] passes to it: [s] is
    not empty and made of [isdigit] characters.  The superscript digits
    are not decimal ("invalid literal for int() with base 10") and more
    than [int_max_str_digits] digits exceed the conversion limit; both
    raise [ValueError]. *)
Definition int (s : str) : result Z :=
  if forallb isdecimal s && (List.length s <=? int_max_str_digits)%nat
  then Ret (fold_left (fun acc c => 10 * acc + digit_value c) s 0)
  else Raise ValueError.

(** [s.split(sep)] for a separator of one character: the pieces between
    its occurrences, empty pieces included; never the empty list. *)
Fixpoint split (sep : ascii) (s : str) : list str :=
  match s with
  | [] => [[]]
  | c :: s' =>
      if Ascii.eqb c sep then [] :: split sep s'
      else match split sep s' with
           | [] => [[c]]
           | w :: ws => (c :: w) :: ws
           end
  end.

Fixpoint lstrip (s : str) : str :=
  match s with
  | [] => []
  | c :: s' => if isspace c then lstrip s' else s
  end.

(** [s.strip()] *)
Definition strip (s : str) : str := rev (lstrip (rev (lstrip s))).

End PyStr.

Import PyStr.

(** ** Cell values *)

(** The exact value of a [float64] or [int64] cell. *)
Inductive f64 : Type :=
| NaN
| Inf (negative : bool)
| Fin (q : Q).

(** [x <= y] on cells; false as soon as one side is not a number. *)
Definition f64_le (x y : f64) : bool :=
  match x, y with
  | NaN, _ | _, NaN => false
  | Inf true, _ => true
  | _, Inf false => true
  | Inf false, _ => false
  | _, Inf true => false
  | Fin p, Fin q => Qle_bool p q
  end.

Definition isna (x : f64) : bool :=
  match x with
  | NaN => true
  | _ => false
  end.

Definition of_int (z : Z) : f64 := Fin (inject_Z z).

(** What a raw cell holds when [pro3_st.py] looks at it: a [str], an
    integer or a float ([np.nan] is [VFloat NaN]). *)
Inductive cell : Type :=
| VStr (s : str)
| VInt (z : Z)
| VFloat (x : f64).

Definition is_text (c : cell) : bool :=
  match c with
  | VStr _ => true
  | _ => false
  end.

Definition is_float (c : cell) : bool :=
  match c with
  | VFloat _ => true
  | _ => false
  end.

(** The dtype [read_csv] gives a column: [object] when it holds a text
    (its other cells are then texts or missing) and for every column of
    a file without rows, [float64] when it holds numbers and one of them is a
    float or is missing, [int64] when it holds integers only. *)
Inductive dtype : Type :=
| object
| float64
| int64.

Definition dtype_of (column : list cell) : dtype :=
  match column with
  | [] => object
  | _ :: _ =>
      if existsb is_text column then object
      else if existsb is_float column then float64
      else int64
  end.

Definition is_object (column : list cell) : bool :=
  match dtype_of column with
  | object => true
  | _ => false
  end.

(** Whether the conversion of the integer [z] to a float raises
    "int too large to convert to float": [z] rounds to a magnitude
    of 2^1024 or more. *)
Definition float64_overflows (z : Z) : bool :=
  2 ^ 1024 - 2 ^ 970 <=? Z.abs z.

(** The integer a float holds after the conversion of [z]: [z] itself up
    to 53 bits, beyond that the nearest multiple of the power of two
    that leaves 53 bits, ties to the even one. *)
Definition round_double (z : Z) : Z :=
  let a := Z.abs z in
  let n := Z.log2 a + 1 in
  if n <=? 53 then z
  else
    let sh := n - 53 in
    let q := a / 2 ^ sh in
    let r := a mod 2 ^ sh in
    let half := 2 ^ (sh - 1) in
    let q' := if (half <? r) || ((r =? half) && Z.odd q) then q + 1 else q in
    Z.sgn z * (q' * 2 ^ sh).

Definition to_double (z : Z) : f64 := Fin (inject_Z (round_double z)).

(** ** [pro3_st.py]: the dashboard script *)

Module Dashboard.

(** Lines 27-36. *)
Definition clean_engine_capacity (value : cell) : result cell :=
  match value with
  | VStr s =>
      let v := replace " " [] (lower s) in
      let num := filter isdigit v in
      match num with
      | [] => Ret (VFloat NaN)
      | _ :: _ =>
          num <- int num ;;
          if contains (lit "cc") v || contains (lit "kwh") v
             || contains (lit "kw") v
          then Ret (VInt num)
          else Ret value
      end
  | _ => Ret value
  end.

(** A row of the frame.  [title] is the cell [read_csv] delivers: a
    text, or [VFloat NaN] where the field is empty; [year] is the
    integer model year of the data model, [None] where it is missing;
    [N] is what the two numeric columns hold: raw cells after
    [read_csv] (line 22), [f64] after [pd.to_numeric] (lines 39-40);
    [other] stands for the columns the cleaning never reads. *)
Record row (N : Type) : Type := Row {
  title : cell;
  year : option Z;
  mileage : N;
  engine_capacity : N;
  other : list cell
}.

(** A row once line 51 has added the [brand] column. *)
Record car : Type := Car {
  listing : row f64;
  brand : option str
}.

Definition f64_ge (x y : f64) : bool := f64_le y x.

(** Line 43: [(df["mileage"] >= 0) & (df["mileage"] <= 800_000)]. *)
Definition mileage_in_range (r : row f64) : bool :=
  f64_ge (mileage r) (of_int 0) && f64_le (mileage r) (of_int 800000).

(** Lines 45-46. *)
Definition engine_capacity_in_range (r : row f64) : bool :=
  (f64_ge (engine_capacity r) (of_int 600)
   && f64_le (engine_capacity r) (of_int 7000))
  || (f64_ge (engine_capacity r) (of_int 20)
      && f64_le (engine_capacity r) (of_int 150)).

(** Lines 43-48: the two boolean masks, then
    [dropna(subset=["engine_capacity"])]. *)
Definition remove_outliers (df : list (row f64)) : list (row f64) :=
  let df := filter mileage_in_range df in
  let df := filter engine_capacity_in_range df in
  filter (fun r => negb (isna (engine_capacity r))) df.

(** Line 51 on one cell of a [title] column of dtype [object]:
    [.str.split(' ').str[0]]; a cell that is not a text, the missing
    one among them, gives a missing brand. *)
Definition extract_brand (title : cell) : option str :=
  match title with
  | VStr t => nth_error (split " " t) 0
  | _ => None
  end.

Definition add_brand (r : row f64) : car :=
  {| listing := r; brand := extract_brand (title r) |}.

(** Line 38 on one row: [clean_engine_capacity] applied to its engine
    capacity. *)
Definition clean_row (r : row cell) : result (row cell) :=
  c <- clean_engine_capacity (engine_capacity r) ;;
  Ret {| title := title r; year := year r; mileage := mileage r;
         engine_capacity := c; other := other r |}.

(** Line 51 on the frame.  The [.str] accessor is there for a column of
    dtype [object] only: "Can only use .str accessor with string
    values!" otherwise. *)
Definition add_brands (title_is_object : bool) (df : list (row f64)) : result (list car) :=
  if title_is_object then Ret (map add_brand df) else Raise AttributeError.

Section Coercion.

(** How [pd.to_numeric] reads one cell is pandas code, not part of this
    repository: [parse_number v] is the number it reads in [v], [None]
    where [v] cannot be parsed. *)
Variable parse_number : cell -> option f64.

(** [pd.to_numeric(..., errors="coerce")] on one cell: invalid parsing
    is set to NaN.  An integer too large for a float is not coerced:
    its conversion raises [OverflowError]. *)
Definition to_numeric (v : cell) : result f64 :=
  match v with
  | VInt z =>
      if float64_overflows z then Raise OverflowError
      else Ret (match parse_number v with
                | Some x => x
                | None => NaN
                end)
  | _ => Ret (match parse_number v with
              | Some x => x
              | None => NaN
              end)
  end.

(** Line 38: [df["engine_capacity"].apply(clean_engine_capacity)]. *)
Definition apply_clean (df : list (row cell)) : result (list (row cell)) :=
  mapM clean_row df.

(** Lines 39-40 on one row.  The script converts one column, then the
    other; both raise the same exception, so the rows can be taken one
    at a time. *)
Definition coerce_row (r : row cell) : result (row f64) :=
  c <- to_numeric (engine_capacity r) ;;
  m <- to_numeric (mileage r) ;;
  Ret {| title := title r; year := year r; mileage := m;
         engine_capacity := c; other := other r |}.

(** Lines 38-51: the cleaned dataset.  The dtype of the [title] column
    is the one [read_csv] gave it; the masks do not change it. *)
Definition clean (df : list (row cell)) : result (list car) :=
  let title_is_object := is_object (map (@title cell) df) in
  df <- apply_clean df ;;
  df <- mapM coerce_row df ;;
  add_brands title_is_object (remove_outliers df).

End Coercion.

Definition brand_eqb (a b : option str) : bool :=
  match a, b with
  | Some x, Some y => if list_eq_dec ascii_dec x y then true else false
  | None, None => true
  | _, _ => false
  end.

(** [.isin(values)]; a missing brand matches a missing entry. *)
Definition isin (b : option str) (values : list (option str)) : bool :=
  existsb (brand_eqb b) values.

(** [.unique()]: the distinct values in order of first appearance. *)
Fixpoint unique (l : list (option str)) : list (option str) :=
  match l with
  | [] => []
  | b :: l' => b :: filter (fun x => negb (brand_eqb x b)) (unique l')
  end.

(** Line 59. *)
Definition brands (df : list car) : list (option str) :=
  unique (map brand df).

(** The years that are present; [min()] and [max()] skip the others. *)
Definition years (df : list car) : list Z :=
  flat_map (fun c => match year (listing c) with
                     | Some y => [y]
                     | None => []
                     end) df.

(** Lines 63-67 with the slider left at its default, the observed range.
    [has_year] is ['year' in df.columns].  With no year present [min()]
    is NaN and [int(nan)] raises. *)
Definition year_range (has_year : bool) (df : list car) : result (Z * Z) :=
  if has_year then
    match years df with
    | [] => Raise ValueError
    | y :: ys => Ret (fold_left Z.min ys y, fold_left Z.max ys y)
    end
  else Ret (0, 9999).

(** Line 72; a comparison with a missing year is false. *)
Definition year_between (selected_years : Z * Z) (c : car) : bool :=
  match year (listing c) with
  | Some y => (fst selected_years <=? y) && (y <=? snd selected_years)
  | None => false
  end.

(** Lines 70-72. *)
Definition apply_filters (has_year : bool) (df : list car)
    (selected_brands : list (option str)) (selected_years : Z * Z) : list car :=
  let df_filtered := filter (fun c => isin (brand c) selected_brands) df in
  if has_year then filter (year_between selected_years) df_filtered
  else df_filtered.

End Dashboard.

(** ** [load_to_db.py]: the persistence script *)

Module LoadToDb.

(** Line 11 on one label:
    [.str.strip().str.replace(' ', '_').str.replace(r'[^\w]', '', regex=True)]. *)
Definition normalize (label : str) : str :=
  filter isword (replace " " (lit "_") (strip label)).

(** Line 11. *)
Definition normalize_columns (columns : list str) : list str :=
  map normalize columns.

(** The twelve columns of [dbo.Cars].  [T] is what a text column holds,
    [N] a floating-point column and [Y] the [year] column. *)
Record record (T N Y : Type) : Type := Record12 {
  title : T;
  price : N;
  year : Y;
  mileage : N;
  fuel : T;
  engine_capacity : N;
  transmission : T;
  Registered_In : T;
  Color : T;
  Body_Type : T;
  Assembly : T;
  Last_Updated : T
}.

(** A cell after [fillna(0)]: the cell as it was, or the zero written
    in place of a missing one: the integer [0] in a column of dtype
    [object] ([Zero false]), the float [0.0] in a column of dtype
    [float64] ([Zero true]). *)
Inductive filled : Type :=
| Kept (c : cell)
| Zero (float : bool).

(** A row as [read_csv] gives it (line 9), every cell as it is read: a
    text, an integer or a float, [VFloat NaN] where the field is
    empty. *)
Definition csv_row : Type := record cell cell cell.
Definition filled_row : Type := record filled filled filled.
Definition stored_row : Type := record str f64 Z.

(** The dtypes of the twelve columns of the frame. *)
Definition dtypes (df : list csv_row) : record dtype dtype dtype :=
  {| title := dtype_of (map (@title _ _ _) df);
     price := dtype_of (map (@price _ _ _) df);
     year := dtype_of (map (@year _ _ _) df);
     mileage := dtype_of (map (@mileage _ _ _) df);
     fuel := dtype_of (map (@fuel _ _ _) df);
     engine_capacity := dtype_of (map (@engine_capacity _ _ _) df);
     transmission := dtype_of (map (@transmission _ _ _) df);
     Registered_In := dtype_of (map (@Registered_In _ _ _) df);
     Color := dtype_of (map (@Color _ _ _) df);
     Body_Type := dtype_of (map (@Body_Type _ _ _) df);
     Assembly := dtype_of (map (@Assembly _ _ _) df);
     Last_Updated := dtype_of (map (@Last_Updated _ _ _) df) |}.

(** [fillna(0)] on a cell of a column of dtype [dt].  A column of
    dtype [float64] holds floats only: an integer of the file is there
    as the float of its value. *)
Definition fillna_cell (dt : dtype) (c : cell) : filled :=
  match c with
  | VFloat NaN => Zero (match dt with
                        | object => false
                        | _ => true
                        end)
  | VInt z => match dt with
              | float64 => Kept (VFloat (to_double z))
              | _ => Kept c
              end
  | _ => Kept c
  end.

Definition fillna_row (dt : record dtype dtype dtype) (r : csv_row) : filled_row :=
  {| title := fillna_cell (title dt) (title r);
     price := fillna_cell (price dt) (price r);
     year := fillna_cell (year dt) (year r);
     mileage := fillna_cell (mileage dt) (mileage r);
     fuel := fillna_cell (fuel dt) (fuel r);
     engine_capacity := fillna_cell (engine_capacity dt) (engine_capacity r);
     transmission := fillna_cell (transmission dt) (transmission r);
     Registered_In := fillna_cell (Registered_In dt) (Registered_In r);
     Color := fillna_cell (Color dt) (Color r);
     Body_Type := fillna_cell (Body_Type dt) (Body_Type r);
     Assembly := fillna_cell (Assembly dt) (Assembly r);
     Last_Updated := fillna_cell (Last_Updated dt) (Last_Updated r) |}.

(** Line 14. *)
Definition fillna (df : list csv_row) : list filled_row :=
  map (fillna_row (dtypes df)) df.

Definition dtype_list (dt : record dtype dtype dtype) : list dtype :=
  [title dt; price dt; year dt; mileage dt; fuel dt; engine_capacity dt;
   transmission dt; Registered_In dt; Color dt; Body_Type dt; Assembly dt;
   Last_Updated dt].

(** [iterrows] (line 45) builds each row from [df.values], whose dtype
    is the common one of the columns: with no column of dtype [object]
    and one of dtype [float64] it is [float64], and the integers of the
    row are floats. *)
Definition upcasts (dt : record dtype dtype dtype) : bool :=
  forallb (fun d => match d with
                    | object => false
                    | _ => true
                    end) (dtype_list dt)
  && existsb (fun d => match d with
                       | float64 => true
                       | _ => false
                       end) (dtype_list dt).

Definition row_value (upcast : bool) (x : filled) : filled :=
  match x with
  | Kept (VInt z) => if upcast then Kept (VFloat (to_double z)) else x
  | _ => x
  end.

Definition row_values (upcast : bool) (r : filled_row) : filled_row :=
  {| title := row_value upcast (title r);
     price := row_value upcast (price r);
     year := row_value upcast (year r);
     mileage := row_value upcast (mileage r);
     fuel := row_value upcast (fuel r);
     engine_capacity := row_value upcast (engine_capacity r);
     transmission := row_value upcast (transmission r);
     Registered_In := row_value upcast (Registered_In r);
     Color := row_value upcast (Color r);
     Body_Type := row_value upcast (Body_Type r);
     Assembly := row_value upcast (Assembly r);
     Last_Updated := row_value upcast (Last_Updated r) |}.

(** Line 45: the rows the loop sees. *)
Definition iterrows (dt : record dtype dtype dtype) (df : list filled_row) : list filled_row :=
  map (row_values (upcasts dt)) df.

Definition digit_char (d : Z) : ascii := ascii_of_N (Z.to_N (48 + d)).

(** The decimal digits of [p], most significant first; [fuel] bounds the
    recursion and the size of [p] in bits is enough. *)
Fixpoint digits_of (fuel : nat) (p : Z) (acc : str) : str :=
  match fuel with
  | O => acc
  | S fuel' =>
      if p <? 10 then digit_char p :: acc
      else digits_of fuel' (p / 10) (digit_char (p mod 10) :: acc)
  end.

(** [str(z)] of an integer. *)
Definition str_of_int (z : Z) : str :=
  let ds := digits_of (S (Z.to_nat (Z.log2 (Z.abs z)))) (Z.abs z) [] in
  if z <? 0 then "-"%char :: ds else ds.

Section Builtins.

(** Three builtins of Python are taken as they are: [parse_float s] is
    [float(s)] and [parse_int s] is [int(s)] on a text, [None] where
    they raise [ValueError]; [repr_float x] is [str(x)] of a float. *)
Variable parse_float : str -> option f64.
Variable parse_int : str -> option Z.
Variable repr_float : f64 -> str.

(** [str(x)] *)
Definition py_str (x : filled) : str :=
  match x with
  | Kept (VStr s) => s
  | Kept (VInt z) => str_of_int z
  | Kept (VFloat x) => repr_float x
  | Zero false => lit "0"
  | Zero true => lit "0.0"
  end.

(** [float(x)] *)
Definition py_float (x : filled) : result f64 :=
  match x with
  | Kept (VStr s) =>
      match parse_float s with
      | Some x => Ret x
      | None => Raise ValueError
      end
  | Kept (VInt z) =>
      if float64_overflows z then Raise OverflowError else Ret (to_double z)
  | Kept (VFloat x) => Ret x
  | Zero _ => Ret (of_int 0)
  end.

(** [int(x)]: a float is truncated towards zero; NaN and the
    infinities raise. *)
Definition py_int (x : filled) : result Z :=
  match x with
  | Kept (VStr s) =>
      match parse_int s with
      | Some z => Ret z
      | None => Raise ValueError
      end
  | Kept (VInt z) => Ret z
  | Kept (VFloat NaN) => Raise ValueError
  | Kept (VFloat (Inf _)) => Raise OverflowError
  | Kept (VFloat (Fin q)) => Ret (Z.quot (Qnum q) (Z.pos (Qden q)))
  | Zero _ => Ret 0
  end.

(** Lines 46-62: the parameters of one [INSERT], evaluated from left to
    right. *)
Definition insert_params (row : filled_row) : result stored_row :=
  p <- py_float (price row) ;;
  y <- py_int (year row) ;;
  m <- py_float (mileage row) ;;
  e <- py_float (engine_capacity row) ;;
  Ret {| title := py_str (title row);
         price := p;
         year := y;
         mileage := m;
         fuel := py_str (fuel row);
         engine_capacity := e;
         transmission := py_str (transmission row);
         Registered_In := py_str (Registered_In row);
         Color := py_str (Color row);
         Body_Type := py_str (Body_Type row);
         Assembly := py_str (Assembly row);
         Last_Updated := py_str (Last_Updated row) |}.

(** Lines 14 and 45-62: the rows written to [dbo.Cars]. *)
Definition load (df : list csv_row) : result (list stored_row) :=
  mapM insert_params (iterrows (dtypes df) (fillna df)).

End Builtins.

(** The text columns, as projections. *)
Definition text_columns : list (forall T N Y : Type, record T N Y -> T) :=
  [@title; @fuel; @transmission; @Registered_In; @Color; @Body_Type;
   @Assembly; @Last_Updated].

(** The floating-point columns, as projections. *)
Definition float_columns : list (forall T N Y : Type, record T N Y -> N) :=
  [@price; @mileage; @engine_capacity].

End LoadToDb.

Import Dashboard.

(** ** The specification's wording, for comparison with the code *)

(** [p] occurs somewhere in [s]. *)
Definition occurs (p s : str) : Prop := exists a b, s = a ++ p ++ b.

(** A unit token of line 34 is present. *)
Definition has_unit (v : str) : Prop :=
  occurs (lit "cc") v \/ occurs (lit "kwh") v \/ occurs (lit "kw") v.

(** The number a run of decimal digits denotes, by position. *)
Fixpoint number (ds : str) : Z :=
  match ds with
  | [] => 0
  | d :: r => digit_value d * 10 ^ Z.of_nat (List.length r) + number r
  end.

(** The maximal leading run of digit characters. *)
Fixpoint leading_digits (s : str) : str :=
  match s with
  | [] => []
  | c :: s' => if isdecimal c then c :: leading_digits s' else []
  end.

(** The engine-capacity normalizer as section 4.3 of the specification
    words it: lower-case, remove all whitespace, take the leading run of
    digits; nothing found is missing; with a unit token the run is the
    number, otherwise the value passes through. *)
Definition clean_engine_capacity_spec (value : cell) : cell :=
  match value with
  | VStr s =>
      let v := filter (fun c => negb (isspace c)) (lower s) in
      let ds := leading_digits v in
      match ds with
      | [] => VFloat NaN
      | _ :: _ =>
          if contains (lit "cc") v || contains (lit "kwh") v
             || contains (lit "kw") v
          then VInt (number ds)
          else value
      end
  | _ => value
  end.

Fixpoint take_token (s : str) : str :=
  match s with
  | [] => []
  | c :: s' => if isspace c then [] else c :: take_token s'
  end.

(** The first whitespace-delimited token of a text, as section 4.5 of
    the specification words the brand. *)
Definition first_token (s : str) : str := take_token (lstrip s).

(** What lines 38-40 and 51 make of one source row of a frame whose
    titles are a column of dtype [object]. *)
Definition prepare (parse_number : cell -> option f64) (r : row cell) : result car :=
  r' <- clean_row r ;;
  r'' <- coerce_row parse_number r' ;;
  Ret (add_brand r'').

(** Whether [pd.to_numeric] raises on the cell. *)
Definition overflows (v : cell) : bool :=
  match v with
  | VInt z => float64_overflows z
  | _ => false
  end.

(** The two range tests of lines 43-46 on a row of the cleaned
    dataset. *)
Definition in_ranges (c : car) : bool :=
  mileage_in_range (listing c) && engine_capacity_in_range (listing c).

(** A cell is a number within the closed interval [lo, hi]. *)
Definition within (lo hi : Z) (x : f64) : Prop :=
  exists q, x = Fin q /\ (inject_Z lo <= q)%Q /\ (q <= inject_Z hi)%Q.

(** Whether the year of a row is present. *)
Definition has_year_value (c : car) : bool :=
  match Dashboard.year (listing c) with
  | Some _ => true
  | None => false
  end.

(** ** The metrics of [pro3_st.py] *)

(** A cell that is a number. *)
Definition is_fin (x : f64) : Prop := exists q, x = Fin q.

Definition f64_min (x y : f64) : f64 := if f64_le x y then x else y.

Definition f64_max (x y : f64) : f64 := if f64_le x y then y else x.

(** [Series.min()]: the missing cells are skipped; NaN when none is
    left. *)
Definition series_min (l : list f64) : f64 :=
  match filter (fun x => negb (isna x)) l with
  | [] => NaN
  | x :: l' => fold_left f64_min l' x
  end.

(** [Series.max()] *)
Definition series_max (l : list f64) : f64 :=
  match filter (fun x => negb (isna x)) l with
  | [] => NaN
  | x :: l' => fold_left f64_max l' x
  end.

(** Line 80: [df_filtered.shape[0]]. *)
Definition total_cars (df_filtered : list car) : nat := List.length df_filtered.

(** Line 82: [df_filtered['mileage'].min()], the number the metric
    formats. *)
Definition min_mileage (df_filtered : list car) : f64 :=
  series_min (map (fun c => Dashboard.mileage (listing c)) df_filtered).

(** Line 83: [df_filtered['mileage'].max()]. *)
Definition max_mileage (df_filtered : list car) : f64 :=
  series_max (map (fun c => Dashboard.mileage (listing c)) df_filtered).

(** ** The brand chart of [pro3_st.py] *)

(** The [brand] column of the view without its missing cells, which
    [value_counts()] leaves out. *)
Definition present_brands (df_filtered : list car) : list str :=
  flat_map (fun c => match brand c with
                     | Some b => [b]
                     | None => []
                     end) df_filtered.

(** How often [b] stands in the column. *)
Definition occurrences (b : str) (col : list str) : nat :=
  count_occ (list_eq_dec ascii_dec) col b.

(** The table of [value_counts()] before it is sorted: each distinct
    brand with the number of its rows. *)
Definition counts (col : list str) : list (str * nat) :=
  map (fun b => (b, occurrences b col)) (nodup (list_eq_dec ascii_dec) col).

(** [vc] is a result of [value_counts()] on the column: the table in
    descending order of the counts.  The order among equal counts is the
    choice of the sort inside pandas and is left open. *)
Definition is_value_counts (col : list str) (vc : list (str * nat)) : Prop :=
  Permutation vc (counts col)
  /\ StronglySorted (fun x y => (snd y <= snd x)%nat) vc.

(** Line 96: [.head(10)] of it, the bars of the chart. *)
Definition top_brands (vc : list (str * nat)) : list (str * nat) := firstn 10 vc.

Fixpoint insert_count (x : str * nat) (l : list (str * nat)) : list (str * nat) :=
  match l with
  | [] => [x]
  | y :: l' => if (snd y <=? snd x)%nat then x :: l else y :: insert_count x l'
  end.

(** One such order, by insertion. *)
Definition sorted_counts (col : list str) : list (str * nat) :=
  fold_right insert_count [] (counts col).

(** ** The persistence path, row against stored row *)

(** What the insert loop sees of a cell of a column of dtype [dt]: the
    cell after [fillna(0)], as [iterrows] hands it over. *)
Definition seen (upcast : bool) (dt : dtype) (c : cell) : LoadToDb.filled :=
  LoadToDb.row_value upcast (LoadToDb.fillna_cell dt c).

(** What the insert loop stores for the missing cells of [r], a row of
    the frame [df], in the stored row [s]: the text of the zero that
    [fillna] wrote in a text column, the number 0 elsewhere. *)
Definition zero_filled (df : list LoadToDb.csv_row)
    (r : LoadToDb.csv_row) (s : LoadToDb.stored_row) : Prop :=
  (forall col, In col LoadToDb.text_columns ->
     col _ _ _ r = VFloat NaN ->
     col _ _ _ s = if is_object (map (col _ _ _) df) then lit "0" else lit "0.0")
  /\ (forall col, In col LoadToDb.float_columns ->
        col _ _ _ r = VFloat NaN -> col _ _ _ s = of_int 0)
  /\ (LoadToDb.year r = VFloat NaN -> LoadToDb.year s = 0).

(** What it stores for the cells of [r] that are present and that the
    loop sees as they were read. *)
Definition kept_as_read (r : LoadToDb.csv_row) (s : LoadToDb.stored_row) : Prop :=
  (forall col t, In col LoadToDb.text_columns ->
     col _ _ _ r = VStr t -> col _ _ _ s = t)
  /\ (forall col x, In col LoadToDb.float_columns ->
        col _ _ _ r = VFloat x -> x <> NaN -> col _ _ _ s = x)
  /\ (forall col z, In col LoadToDb.float_columns ->
        col _ _ _ r = VInt z -> Z.abs z < 2 ^ 53 -> col _ _ _ s = of_int z)
  /\ (forall y, LoadToDb.year r = VInt y -> Z.abs y < 2 ^ 53 ->
        LoadToDb.year s = y).

(** The integers of the numeric columns of the row fit a float, as every
    integer of a column of dtype [int64] does. *)
Definition fits (r : LoadToDb.csv_row) : Prop :=
  forall col z, In col LoadToDb.float_columns ->
    col _ _ _ r = VInt z -> float64_overflows z = false.

(** A row on which a conversion of the insert loop raises: a text in a
    numeric column that [float] or [int] does not read, or an infinite
    year. *)
Definition unreadable (parse_float : str -> option f64)
    (parse_int : str -> option Z) (r : LoadToDb.csv_row) : Prop :=
  (exists col t, In col LoadToDb.float_columns
                 /\ col _ _ _ r = VStr t /\ parse_float t = None)
  \/ (exists t, LoadToDb.year r = VStr t /\ parse_int t = None)
  \/ (exists b, LoadToDb.year r = VFloat (Inf b)).

(** ** Sample data *)

Definition corolla : row cell :=
  {| Dashboard.title := VStr (lit "Toyota Corolla 2015");
     Dashboard.year := Some 2015;
     Dashboard.mileage := VInt 50000;
     Dashboard.engine_capacity := VStr (lit "1300cc");
     Dashboard.other := [] |}.

(** Mileage beyond the range. *)
Definition worn_out : row cell :=
  {| Dashboard.title := VStr (lit "Suzuki Mehran");
     Dashboard.year := Some 1995;
     Dashboard.mileage := VInt 900000;
     Dashboard.engine_capacity := VStr (lit "800 cc");
     Dashboard.other := [] |}.

(** An engine capacity without digits. *)
Definition no_capacity : row cell :=
  {| Dashboard.title := VStr (lit "Honda Civic");
     Dashboard.year := Some 2018;
     Dashboard.mileage := VInt 30000;
     Dashboard.engine_capacity := VStr (lit "abc");
     Dashboard.other := [] |}.

(** A mileage that is not a number. *)
Definition no_mileage : row cell :=
  {| Dashboard.title := VStr (lit "Honda City");
     Dashboard.year := Some 2020;
     Dashboard.mileage := VStr (lit "n/a");
     Dashboard.engine_capacity := VInt 1500;
     Dashboard.other := [] |}.

(** A displacement written in cubic centimetres, with U+00B3. *)
Definition cubic : row cell :=
  {| Dashboard.title := VStr (lit "Toyota Vitz");
     Dashboard.year := Some 2012;
     Dashboard.mileage := VInt 60000;
     Dashboard.engine_capacity := VStr (lit "1300cm" ++ ["179"%char]);
     Dashboard.other := [] |}.

(** A listing whose title field is empty. *)
Definition nameless : row cell :=
  {| Dashboard.title := VFloat NaN;
     Dashboard.year := Some 2016;
     Dashboard.mileage := VInt 40000;
     Dashboard.engine_capacity := VInt 1000;
     Dashboard.other := [] |}.

Definition nameless_car : car :=
  {| listing := {| Dashboard.title := VFloat NaN;
                   Dashboard.year := Some 2016;
                   Dashboard.mileage := of_int 40000;
                   Dashboard.engine_capacity := of_int 1000;
                   Dashboard.other := [] |};
     brand := None |}.

(** An engine capacity of 400 digits before its unit. *)
Definition astronomic : row cell :=
  {| Dashboard.title := VStr (lit "Toyota Prius");
     Dashboard.year := Some 2019;
     Dashboard.mileage := VInt 10000;
     Dashboard.engine_capacity := VStr (repeat "9"%char 400 ++ lit "cc");
     Dashboard.other := [] |}.

(** An electric car, its year missing. *)
Definition leaf : row cell :=
  {| Dashboard.title := VStr (lit "Nissan Leaf");
     Dashboard.year := None;
     Dashboard.mileage := VInt 20000;
     Dashboard.engine_capacity := VStr (lit "50kw");
     Dashboard.other := [] |}.

(** A stand-in for [parse_number] on which the pipeline can be run:
    numeric cells as they are, and texts that are a run of decimal
    digits. *)
Definition parse_plain (v : cell) : option f64 :=
  match v with
  | VStr s =>
      match s with
      | [] => None
      | _ :: _ => if forallb isdecimal s
                  then Some (of_int (fold_left (fun acc c => 10 * acc + digit_value c) s 0))
                  else None
      end
  | VInt z => Some (of_int z)
  | VFloat x => Some x
  end.

Definition sample_frame : list (row cell) :=
  [corolla; worn_out; no_capacity; no_mileage].

Definition corolla_car : car :=
  {| listing := {| Dashboard.title := VStr (lit "Toyota Corolla 2015");
                   Dashboard.year := Some 2015;
                   Dashboard.mileage := of_int 50000;
                   Dashboard.engine_capacity := of_int 1300;
                   Dashboard.other := [] |};
     brand := Some (lit "Toyota") |}.

Definition leaf_car : car :=
  {| listing := {| Dashboard.title := VStr (lit "Nissan Leaf");
                   Dashboard.year := None;
                   Dashboard.mileage := of_int 20000;
                   Dashboard.engine_capacity := of_int 50;
                   Dashboard.other := [] |};
     brand := Some (lit "Nissan") |}.

(** What lines 38-51 make of [worn_out], [no_capacity] and
    [no_mileage] before the range tests remove them. *)
Definition worn_out_car : car :=
  {| listing := {| Dashboard.title := VStr (lit "Suzuki Mehran");
                   Dashboard.year := Some 1995;
                   Dashboard.mileage := of_int 900000;
                   Dashboard.engine_capacity := of_int 800;
                   Dashboard.other := [] |};
     brand := Some (lit "Suzuki") |}.

Definition no_capacity_car : car :=
  {| listing := {| Dashboard.title := VStr (lit "Honda Civic");
                   Dashboard.year := Some 2018;
                   Dashboard.mileage := of_int 30000;
                   Dashboard.engine_capacity := NaN;
                   Dashboard.other := [] |};
     brand := Some (lit "Honda") |}.

Definition no_mileage_car : car :=
  {| listing := {| Dashboard.title := VStr (lit "Honda City");
                   Dashboard.year := Some 2020;
                   Dashboard.mileage := NaN;
                   Dashboard.engine_capacity := of_int 1500;
                   Dashboard.other := [] |};
     brand := Some (lit "Honda") |}.

Definition civic_car : car :=
  {| listing := {| Dashboard.title := VStr (lit "Honda Civic");
                   Dashboard.year := Some 2018;
                   Dashboard.mileage := of_int 30000;
                   Dashboard.engine_capacity := of_int 1800;
                   Dashboard.other := [] |};
     brand := Some (lit "Honda") |}.

(** Stand-ins for the three builtins, on which the insert loop can be
    run: texts that are a run of decimal digits, and whole floats. *)
Definition plain_digits (s : str) : option Z :=
  match s with
  | [] => None
  | _ :: _ => if forallb isdecimal s
              then Some (fold_left (fun acc c => 10 * acc + digit_value c) s 0)
              else None
  end.

Definition plain_float (s : str) : option f64 :=
  match plain_digits s with
  | Some z => Some (of_int z)
  | None => None
  end.

Definition plain_repr (x : f64) : str :=
  match x with
  | NaN => lit "nan"
  | Inf false => lit "inf"
  | Inf true => lit "-inf"
  | Fin q => LoadToDb.str_of_int (Z.quot (Qnum q) (Z.pos (Qden q))) ++ lit ".0"
  end.

(** A listing read from the file with its title and its price missing. *)
Definition untitled : LoadToDb.csv_row :=
  {| LoadToDb.title := VFloat NaN;
     LoadToDb.price := VFloat NaN;
     LoadToDb.year := VInt 2015;
     LoadToDb.mileage := VInt 50000;
     LoadToDb.fuel := VStr (lit "Petrol");
     LoadToDb.engine_capacity := VInt 1300;
     LoadToDb.transmission := VStr (lit "Manual");
     LoadToDb.Registered_In := VStr (lit "Lahore");
     LoadToDb.Color := VStr (lit "White");
     LoadToDb.Body_Type := VStr (lit "Sedan");
     LoadToDb.Assembly := VStr (lit "Local");
     LoadToDb.Last_Updated := VStr (lit "Nov 01, 2023") |}.

(** A listing with nothing missing. *)
Definition listed : LoadToDb.csv_row :=
  {| LoadToDb.title := VStr (lit "Honda Civic 2018");
     LoadToDb.price := VFloat (of_int 4500000);
     LoadToDb.year := VInt 2018;
     LoadToDb.mileage := VInt 30000;
     LoadToDb.fuel := VStr (lit "Petrol");
     LoadToDb.engine_capacity := VInt 1800;
     LoadToDb.transmission := VStr (lit "Automatic");
     LoadToDb.Registered_In := VStr (lit "Karachi");
     LoadToDb.Color := VStr (lit "Black");
     LoadToDb.Body_Type := VStr (lit "Sedan");
     LoadToDb.Assembly := VStr (lit "Local");
     LoadToDb.Last_Updated := VStr (lit "Nov 02, 2023") |}.

(** A listing whose engine capacity is the text the dashboard
    normalizes. *)
Definition with_unit : LoadToDb.csv_row :=
  {| LoadToDb.title := VStr (lit "Toyota Corolla 2015");
     LoadToDb.price := VFloat (of_int 2500000);
     LoadToDb.year := VInt 2015;
     LoadToDb.mileage := VInt 50000;
     LoadToDb.fuel := VStr (lit "Petrol");
     LoadToDb.engine_capacity := VStr (lit "1300cc");
     LoadToDb.transmission := VStr (lit "Manual");
     LoadToDb.Registered_In := VStr (lit "Lahore");
     LoadToDb.Color := VStr (lit "White");
     LoadToDb.Body_Type := VStr (lit "Sedan");
     LoadToDb.Assembly := VStr (lit "Local");
     LoadToDb.Last_Updated := VStr (lit "Nov 01, 2023") |}.

(** What is stored for [untitled] and for [listed], read together. *)
Definition untitled_stored : LoadToDb.stored_row :=
  {| LoadToDb.title := lit "0";
     LoadToDb.price := of_int 0;
     LoadToDb.year := 2015;
     LoadToDb.mileage := of_int 50000;
     LoadToDb.fuel := lit "Petrol";
     LoadToDb.engine_capacity := of_int 1300;
     LoadToDb.transmission := lit "Manual";
     LoadToDb.Registered_In := lit "Lahore";
     LoadToDb.Color := lit "White";
     LoadToDb.Body_Type := lit "Sedan";
     LoadToDb.Assembly := lit "Local";
     LoadToDb.Last_Updated := lit "Nov 01, 2023" |}.

Definition listed_stored : LoadToDb.stored_row :=
  {| LoadToDb.title := lit "Honda Civic 2018";
     LoadToDb.price := of_int 4500000;
     LoadToDb.year := 2018;
     LoadToDb.mileage := of_int 30000;
     LoadToDb.fuel := lit "Petrol";
     LoadToDb.engine_capacity := of_int 1800;
     LoadToDb.transmission := lit "Automatic";
     LoadToDb.Registered_In := lit "Karachi";
     LoadToDb.Color := lit "Black";
     LoadToDb.Body_Type := lit "Sedan";
     LoadToDb.Assembly := lit "Local";
     LoadToDb.Last_Updated := lit "Nov 02, 2023" |}.

(** ** Strings *)

Lemma eqb_space (c : ascii) : Ascii.eqb c " " = true <-> c = " "%char.
Proof. apply Ascii.eqb_eq. Qed.

Lemma replace_space_empty (s : str) :
  replace " " [] s = filter (fun c => negb (Ascii.eqb c " ")) s.
Proof.
  unfold replace. induction s as [|c s IH]; [reflexivity|].
  cbn [flat_map filter]. rewrite IH.
  destruct (Ascii.eqb c " "); reflexivity.
Qed.

Lemma startswith_app (s p : str) :
  startswith s p = true <-> exists b, s = p ++ b.
Proof.
  revert s. induction p as [|a p IH]; intros s; simpl.
  - split; [intros _; exists s; reflexivity | reflexivity].
  - destruct s as [|b s].
    + split; [discriminate | intros [x H]; discriminate].
    + rewrite andb_true_iff, Ascii.eqb_eq, IH. split.
      * intros [-> [x ->]]. exists x. reflexivity.
      * intros [x H]. injection H as -> ->. split; [reflexivity | eauto].
Qed.

Lemma contains_occurs (p s : str) : contains p s = true <-> occurs p s.
Proof.
  unfold occurs. induction s as [|c s IH]; simpl.
  - rewrite orb_false_r, startswith_app. split.
    + intros [b H]. exists [], b. exact H.
    + intros [a [b H]]. destruct a; [exists b; exact H | discriminate].
  - rewrite orb_true_iff, startswith_app, IH. split.
    + intros [[b H] | [a [b H]]].
      * exists [], b. exact H.
      * exists (c :: a), b. simpl. rewrite H. reflexivity.
    + intros [a [b H]]. destruct a as [|x a].
      * left. exists b. exact H.
      * right. injection H as _ H. exists a, b. exact H.
Qed.

Lemma contains_false_occurs (p s : str) : contains p s = false <-> ~ occurs p s.
Proof.
  rewrite <- contains_occurs. destruct (contains p s); split; congruence.
Qed.

Lemma has_unit_true (v : str) :
  has_unit v ->
  contains (lit "cc") v || contains (lit "kwh") v || contains (lit "kw") v = true.
Proof.
  unfold has_unit. rewrite !orb_true_iff, !contains_occurs. tauto.
Qed.

Lemma has_unit_false (v : str) :
  ~ has_unit v ->
  contains (lit "cc") v || contains (lit "kwh") v || contains (lit "kw") v = false.
Proof.
  unfold has_unit. intros H.
  rewrite !orb_false_iff, !contains_false_occurs. tauto.
Qed.

Lemma fold_digits (ds : str) (acc : Z) :
  fold_left (fun a c => 10 * a + digit_value c) ds acc
  = acc * 10 ^ Z.of_nat (List.length ds) + number ds.
Proof.
  revert acc. induction ds as [|d ds IH]; intros acc; simpl number.
  - simpl. lia.
  - cbn [fold_left List.length]. rewrite IH, Nat2Z.inj_succ, Z.pow_succ_r by lia.
    lia.
Qed.

Lemma int_decimal (ds : str) :
  (forall c, In c ds -> isdecimal c = true) ->
  (List.length ds <= int_max_str_digits)%nat ->
  int ds = Ret (number ds).
Proof.
  intros Hdec Hlen. unfold int.
  assert (forallb isdecimal ds = true) as -> by (apply forallb_forall; exact Hdec).
  apply Nat.leb_le in Hlen. rewrite Hlen. simpl. rewrite fold_digits.
  reflexivity.
Qed.

(** ** The engine-capacity normalizer *)

(** C1, as the code has it.  A text is lower-cased and its space
    characters (U+0020) are removed; all its digit characters are
    collected, wherever they stand.  With none the result is missing.
    When the digits are decimal and within the conversion limit: with
    "cc", "kwh" or "kw" anywhere in the normalized text the result is the
    number the collected digits denote, otherwise the original text is
    returned unchanged.  A value that is not a text is returned as it
    is. *)
Theorem clean_engine_capacity_cases (value : cell) :
  match value with
  | VStr s =>
      let v := filter (fun c => negb (Ascii.eqb c " ")) (lower s) in
      let ds := filter isdigit v in
      (ds = [] -> clean_engine_capacity value = Ret (VFloat NaN))
      /\ (ds <> [] ->
          (forall c, In c ds -> isdecimal c = true) ->
          (List.length ds <= int_max_str_digits)%nat ->
          (has_unit v -> clean_engine_capacity value = Ret (VInt (number ds)))
          /\ (~ has_unit v -> clean_engine_capacity value = Ret value))
  | _ => clean_engine_capacity value = Ret value
  end.
Proof.
  destruct value as [s | z | x]; try reflexivity.
  cbv zeta. unfold clean_engine_capacity. rewrite replace_space_empty.
  set (v := filter _ (lower s)). set (ds := filter isdigit v).
  split.
  - intros ->. reflexivity.
  - intros Hne Hdec Hlen. rewrite (int_decimal ds Hdec Hlen).
    destruct ds as [|d ds'] eqn:E; [congruence|]. cbn [bind].
    split; intros H.
    + rewrite (has_unit_true H). reflexivity.
    + rewrite (has_unit_false H). reflexivity.
Qed.

Lemma clean_engine_capacity_cases_witness :
  clean_engine_capacity (VStr (lit "1300cc")) = Ret (VInt 1300).
Proof.
  destruct (clean_engine_capacity_cases (VStr (lit "1300cc"))) as [_ H].
  refine (proj1 (H _ _ _) _).
  - discriminate.
  - intros c Hc. simpl in Hc.
    destruct Hc as [<- | [<- | [<- | [<- | []]]]]; reflexivity.
  - apply Nat.leb_le. reflexivity.
  - left. exists (lit "1300"), []. reflexivity.
Defined.

(** The examples of section 8 of the specification. *)
Example capacity_1300cc :
  clean_engine_capacity (VStr (lit "1300cc")) = Ret (VInt 1300).
Proof. reflexivity. Qed.

Example capacity_50kw :
  clean_engine_capacity (VStr (lit "50kw")) = Ret (VInt 50).
Proof. reflexivity. Qed.

Example capacity_abc :
  clean_engine_capacity (VStr (lit "abc")) = Ret (VFloat NaN).
Proof. reflexivity. Qed.

Example capacity_5000 :
  clean_engine_capacity (VInt 5000) = Ret (VInt 5000).
Proof. reflexivity. Qed.

Example capacity_upper_case_and_spaces :
  clean_engine_capacity (VStr (lit " 1 300 CC")) = Ret (VInt 1300).
Proof. reflexivity. Qed.

(** C1 as stated fails: on "1.3cc" the code collects the digits on both
    sides of the point and returns 13, where the leading run of digits
    is "1". *)
Lemma clean_engine_capacity_not_leading_run :
  clean_engine_capacity (VStr (lit "1.3cc")) = Ret (VInt 13)
  /\ clean_engine_capacity_spec (VStr (lit "1.3cc")) = VInt 1
  /\ clean_engine_capacity (VStr (lit "1.3cc"))
     <> Ret (clean_engine_capacity_spec (VStr (lit "1.3cc"))).
Proof. repeat split. discriminate. Qed.

(** Digits after a word are collected as well: the leading run is empty
    and the specification's wording gives a missing value. *)
Example capacity_digits_after_text :
  clean_engine_capacity (VStr (lit "v8 1300cc")) = Ret (VInt 81300)
  /\ clean_engine_capacity_spec (VStr (lit "v8 1300cc")) = VFloat NaN.
Proof. split; reflexivity. Qed.

(** Only U+0020 is removed: a tab inside the unit stays in the
    normalized text, which then holds no unit token. *)
Example capacity_tab_kept :
  clean_engine_capacity (VStr (lit "50k" ++ ["009"%char] ++ lit "w"))
  = Ret (VStr (lit "50k" ++ ["009"%char] ++ lit "w")).
Proof. reflexivity. Qed.

(** C9: the normalizer raises on "1300cm" followed by the superscript
    three (U+00B3).  [isdigit] collects "1300" and the superscript, and
    [int] rejects the superscript with [ValueError]. *)
Theorem clean_engine_capacity_raises :
  clean_engine_capacity (VStr (lit "1300cm" ++ ["179"%char])) = Raise ValueError.
Proof. reflexivity. Qed.

(** The conversion limit of [int] is a second way to the same
    exception: 4301 digits before the unit. *)
Example clean_engine_capacity_too_long :
  clean_engine_capacity (VStr (repeat "9"%char 4301 ++ lit "cc"))
  = Raise ValueError.
Proof. vm_compute. reflexivity. Qed.

(** The exception leaves [apply] and no cleaned dataset is produced. *)
Lemma clean_raises (parse_number : cell -> option f64) (r : row cell)
    (df : list (row cell)) :
  clean_engine_capacity (engine_capacity r) = Raise ValueError ->
  clean parse_number (r :: df) = Raise ValueError.
Proof.
  intros H. unfold clean, apply_clean. cbv zeta. cbn [mapM].
  unfold clean_row at 1. rewrite H. reflexivity.
Qed.

Example clean_frame_raises (parse_number : cell -> option f64) :
  clean parse_number (cubic :: sample_frame) = Raise ValueError.
Proof. apply clean_raises. reflexivity. Qed.

(** Where the normalizer does return: on every value that is not a text,
    and on every text whose digit characters are decimal and within the
    conversion limit; the result is then a number, NaN or the value. *)
Lemma clean_engine_capacity_returns (value : cell) :
  (forall s, value = VStr s ->
     let ds := filter isdigit (replace " " [] (lower s)) in
     (forall c, In c ds -> isdecimal c = true)
     /\ (List.length ds <= int_max_str_digits)%nat) ->
  exists v, clean_engine_capacity value = Ret v
            /\ ((exists n, v = VInt n) \/ v = VFloat NaN \/ v = value).
Proof.
  intros H. destruct value as [s | z | x].
  - destruct (H s eq_refl) as [Hdec Hlen]. unfold clean_engine_capacity.
    destruct (filter isdigit (replace " " [] (lower s))) as [|d ds] eqn:E.
    + eauto.
    + rewrite (int_decimal _ Hdec Hlen). cbn [bind].
      destruct (_ || _); eauto.
  - exists (VInt z). auto.
  - exists (VFloat x). auto.
Qed.

(** ** Column names *)

Lemma isword_not_space (c : ascii) :
  isword c = true -> isspace c = false /\ Ascii.eqb c " " = false.
Proof.
  destruct c as [[] [] [] [] [] [] [] []]; vm_compute; intros H;
    first [discriminate H | split; reflexivity].
Qed.

Lemma lstrip_id (s : str) :
  (forall c, In c s -> isspace c = false) -> lstrip s = s.
Proof.
  destruct s as [|c s]; [reflexivity|]. intros H. simpl.
  rewrite (H c) by (left; reflexivity). reflexivity.
Qed.

Lemma strip_id (s : str) :
  (forall c, In c s -> isspace c = false) -> strip s = s.
Proof.
  intros H. unfold strip. rewrite (lstrip_id s H), lstrip_id.
  - apply rev_involutive.
  - intros c Hc. apply H. apply in_rev. exact Hc.
Qed.

Lemma replace_id (old : ascii) (new s : str) :
  (forall c, In c s -> Ascii.eqb c old = false) -> replace old new s = s.
Proof.
  unfold replace. induction s as [|c s IH]; intros H; [reflexivity|].
  cbn [flat_map]. rewrite (H c) by (left; reflexivity).
  rewrite IH by (intros x Hx; apply H; right; exact Hx). reflexivity.
Qed.

Lemma normalize_isword (x : str) (c : ascii) :
  In c (LoadToDb.normalize x) -> isword c = true.
Proof. unfold LoadToDb.normalize. intros H. apply filter_In in H. tauto. Qed.

(** A label made of [\w] characters is left as it is. *)
Lemma normalize_words (y : str) :
  (forall c, In c y -> isword c = true) -> LoadToDb.normalize y = y.
Proof.
  intros Hw. unfold LoadToDb.normalize.
  rewrite strip_id by (intros c Hc; apply isword_not_space; auto).
  rewrite replace_id by (intros c Hc; apply isword_not_space; auto).
  apply forallb_filter_id. apply forallb_forall. exact Hw.
Qed.

(** C4: normalizing a normalized column label changes nothing, for every
    label; the normalization is a total function, defined on every
    text. *)
Theorem normalize_idempotent (x : str) :
  LoadToDb.normalize (LoadToDb.normalize x) = LoadToDb.normalize x.
Proof.
  apply normalize_words. intros c. apply normalize_isword.
Qed.

Lemma normalize_columns_idempotent (columns : list str) :
  LoadToDb.normalize_columns (LoadToDb.normalize_columns columns)
  = LoadToDb.normalize_columns columns.
Proof.
  unfold LoadToDb.normalize_columns. rewrite map_map.
  apply map_ext. intros x. apply normalize_words.
  intros c. apply normalize_isword.
Qed.

Example normalize_registered_in :
  LoadToDb.normalize (lit "  Registered In ") = lit "Registered_In".
Proof. reflexivity. Qed.

(** An inner tab is not replaced by an underscore: it is deleted with the
    other characters outside [\w]. *)
Example normalize_inner_tab :
  LoadToDb.normalize (lit "Body" ++ ["009"%char] ++ lit "Type") = lit "BodyType".
Proof. reflexivity. Qed.

(** ** The brand *)







(** A title that begins with a space has the empty brand. *)
Example brand_leading_space :
  extract_brand (VStr (lit " Toyota Corolla")) = Some []
  /\ first_token (lit " Toyota Corolla") = lit "Toyota".
Proof. split; reflexivity. Qed.

(** Without a text among the titles line 51 raises. *)
Example brand_needs_text (df : list (row f64)) :
  add_brands false df = Raise AttributeError.
Proof. reflexivity. Qed.

(** ** The outlier filter *)

Lemma mapM_Forall2 {A B : Type} (f : A -> result B) (l : list A) (l' : list B) :
  mapM f l = Ret l' -> Forall2 (fun a b => f a = Ret b) l l'.
Proof.
  revert l'. induction l as [|a l IH]; intros l' H; simpl in H.
  - injection H as <-. constructor.
  - destruct (f a) as [b|e] eqn:Ea; [|discriminate H]. cbn [bind] in H.
    destruct (mapM f l) as [bs|e] eqn:El; [|discriminate H].
    injection H as <-. constructor; auto.
Qed.

Lemma Forall2_In_right {A B : Type} (R : A -> B -> Prop) (l : list A) (l' : list B) (b : B) :
  Forall2 R l l' -> In b l' -> exists a, In a l /\ R a b.
Proof.
  induction 1 as [|a b' l l' Hab _ IH]; intros Hb; [contradiction|].
  destruct Hb as [-> | Hb].
  - exists a. split; [left; reflexivity | exact Hab].
  - destruct (IH Hb) as (a' & Ha' & HR). exists a'. split; [right|]; assumption.
Qed.

Lemma Forall2_In_left {A B : Type} (R : A -> B -> Prop) (l : list A) (l' : list B) (a : A) :
  Forall2 R l l' -> In a l -> exists b, In b l' /\ R a b.
Proof.
  induction 1 as [|a' b l l' Hab _ IH]; intros Ha; [contradiction|].
  destruct Ha as [-> | Ha].
  - exists b. split; [left; reflexivity | exact Hab].
  - destruct (IH Ha) as (b' & Hb' & HR). exists b'. split; [right|]; assumption.
Qed.

(** Two traversals in a row are one traversal with the two steps in a
    row, as long as the first traversal returns. *)
Lemma mapM_then {A B C : Type} (f : A -> result B) (g : B -> result C)
    (l : list A) (mid : list B) :
  mapM f l = Ret mid ->
  mapM (fun a => b <- f a ;; g b) l = mapM g mid.
Proof.
  revert mid. induction l as [|a l IH]; intros mid H; simpl in H.
  - injection H as <-. reflexivity.
  - destruct (f a) as [b|e] eqn:Ea; [|discriminate H]. cbn [bind] in H.
    destruct (mapM f l) as [bs|e] eqn:El; [|discriminate H].
    injection H as <-. cbn [mapM]. rewrite Ea. cbn [bind].
    rewrite (IH bs eq_refl). reflexivity.
Qed.

Lemma mapM_first {A B C : Type} (f : A -> result B) (g : B -> result C)
    (l : list A) (out : list C) :
  mapM (fun a => b <- f a ;; g b) l = Ret out ->
  exists mid, mapM f l = Ret mid.
Proof.
  revert out. induction l as [|a l IH]; intros out H; [eexists; reflexivity|].
  cbn [mapM] in *. destruct (f a) as [b|e]; [|discriminate H]. cbn [bind] in *.
  destruct (g b) as [c|e]; [|discriminate H]. cbn [bind] in H.
  destruct (mapM (fun a => b <- f a ;; g b) l) as [cs|e] eqn:E; [|discriminate H].
  destruct (IH cs eq_refl) as [mid ->]. eexists. reflexivity.
Qed.

Lemma mapM_ret {A B : Type} (f : A -> B) (l : list A) :
  mapM (fun a => Ret (f a)) l = Ret (map f l).
Proof.
  induction l as [|a l IH]; [reflexivity|]. cbn [mapM bind]. rewrite IH.
  reflexivity.
Qed.

Lemma filter_twice {A : Type} (f g : A -> bool) (l : list A) :
  filter f (filter g l) = filter (fun x => g x && f x) l.
Proof.
  induction l as [|a l IH]; [reflexivity|]. simpl.
  destruct (g a); simpl; [destruct (f a)|]; rewrite IH; reflexivity.
Qed.

Lemma filter_map {A B : Type} (f : A -> B) (p : B -> bool) (l : list A) :
  filter p (map f l) = map f (filter (fun a => p (f a)) l).
Proof.
  induction l as [|a l IH]; [reflexivity|]. simpl.
  destruct (p (f a)); simpl; rewrite IH; reflexivity.
Qed.

Lemma within_iff (lo hi : Z) (x : f64) :
  f64_ge x (of_int lo) && f64_le x (of_int hi) = true <-> within lo hi x.
Proof.
  unfold within, f64_ge, of_int. destruct x as [| [] | q]; simpl.
  - split; [discriminate | intros (q & H & _); discriminate H].
  - split; [discriminate | intros (q & H & _); discriminate H].
  - split; [discriminate | intros (q & H & _); discriminate H].
  - rewrite andb_true_iff, !Qle_bool_iff. split.
    + intros [H1 H2]. exists q. auto.
    + intros (q' & H & H1 & H2). injection H as <-. auto.
Qed.

Lemma within_not_nan (lo hi : Z) (x : f64) : within lo hi x -> x <> NaN.
Proof. intros (q & -> & _). discriminate. Qed.

Lemma mileage_in_range_iff (r : row f64) :
  mileage_in_range r = true <-> within 0 800000 (Dashboard.mileage r).
Proof. apply within_iff. Qed.

Lemma engine_capacity_in_range_iff (r : row f64) :
  engine_capacity_in_range r = true
  <-> within 600 7000 (Dashboard.engine_capacity r)
      \/ within 20 150 (Dashboard.engine_capacity r).
Proof.
  unfold engine_capacity_in_range. rewrite orb_true_iff, !within_iff. tauto.
Qed.

Lemma in_ranges_iff (c : car) :
  in_ranges c = true
  <-> within 0 800000 (Dashboard.mileage (listing c))
      /\ (within 600 7000 (Dashboard.engine_capacity (listing c))
          \/ within 20 150 (Dashboard.engine_capacity (listing c))).
Proof.
  unfold in_ranges.
  rewrite andb_true_iff, mileage_in_range_iff, engine_capacity_in_range_iff.
  reflexivity.
Qed.

(** The rows that remain are the rows that pass the two range tests;
    [dropna] removes nothing more. *)
Lemma remove_outliers_In (df : list (row f64)) (r : row f64) :
  In r (remove_outliers df)
  <-> In r df /\ mileage_in_range r = true /\ engine_capacity_in_range r = true.
Proof.
  unfold remove_outliers. rewrite !filter_In. split; [tauto|].
  intros (H & Hm & He). repeat split; try assumption.
  apply engine_capacity_in_range_iff in He.
  destruct (Dashboard.engine_capacity r) eqn:E; try reflexivity.
  destruct He as [He | He]; apply within_not_nan in He; congruence.
Qed.

Lemma remove_outliers_masks (df : list (row f64)) :
  remove_outliers df
  = filter (fun r => mileage_in_range r && engine_capacity_in_range r) df.
Proof.
  unfold remove_outliers. rewrite forallb_filter_id.
  - apply filter_twice.
  - apply forallb_forall. intros r Hr. apply filter_In in Hr.
    destruct Hr as [_ He]. apply engine_capacity_in_range_iff in He.
    destruct (Dashboard.engine_capacity r) eqn:Ec; try reflexivity.
    destruct He as [He | He]; apply within_not_nan in He; congruence.
Qed.

(** The cleaned dataset is the list of the source rows as [prepare]
    leaves them, in order, without those that fail a range test; the
    pipeline returns it when every row can be prepared and the titles
    are a column of dtype [object]. *)
Lemma clean_prepared (parse_number : cell -> option f64) (df : list (row cell))
    (out : list car) :
  clean parse_number df = Ret out
  <-> is_object (map (@Dashboard.title cell) df) = true
      /\ exists all, mapM (prepare parse_number) df = Ret all
                     /\ out = filter in_ranges all.
Proof.
  unfold clean, apply_clean, prepare, add_brands. cbv zeta. split.
  - intros H. destruct (mapM clean_row df) as [d1|e] eqn:E1; [|discriminate H].
    cbn [bind] in H.
    destruct (mapM (coerce_row parse_number) d1) as [d2|e] eqn:E2;
      [|discriminate H].
    cbn [bind] in H.
    destruct (is_object (map (@Dashboard.title cell) df)); [|discriminate H].
    injection H as <-. split; [reflexivity|].
    exists (map add_brand d2). split.
    + rewrite (@mapM_then _ _ _ clean_row _ _ _ E1).
      rewrite (@mapM_then _ _ _ (coerce_row parse_number) _ _ _ E2).
      apply mapM_ret.
    + rewrite remove_outliers_masks, filter_map. reflexivity.
  - intros (Hobj & all & Hall & ->). rewrite Hobj.
    destruct (@mapM_first _ _ _ clean_row
                (fun r' => r'' <- coerce_row parse_number r' ;; Ret (add_brand r''))
                _ _ Hall) as [d1 E1].
    rewrite (@mapM_then _ _ _ clean_row _ _ _ E1) in Hall. rewrite E1.
    cbn [bind].
    destruct (@mapM_first _ _ _ (coerce_row parse_number)
                (fun r'' => Ret (add_brand r'')) _ _ Hall) as [d2 E2].
    rewrite (@mapM_then _ _ _ (coerce_row parse_number) _ _ _ E2), mapM_ret in Hall.
    rewrite E2. cbn [bind].
    injection Hall as <-. rewrite remove_outliers_masks, filter_map.
    reflexivity.
Qed.

(** The cleaned dataset holds what [prepare] makes of the source rows
    that pass the two range tests, and nothing else. *)
Lemma clean_In (parse_number : cell -> option f64) (df : list (row cell))
    (out : list car) (c : car) :
  clean parse_number df = Ret out ->
  In c out
  <-> exists r, In r df /\ prepare parse_number r = Ret c
                /\ mileage_in_range (listing c) = true
                /\ engine_capacity_in_range (listing c) = true.
Proof.
  intros H. apply clean_prepared in H. destruct H as (_ & all & Hall & ->).
  apply mapM_Forall2 in Hall. rewrite filter_In. unfold in_ranges.
  rewrite andb_true_iff. split.
  - intros (Hc & Hm & He).
    destruct (Forall2_In_right _ Hall Hc) as (r & Hr & Hp). eauto.
  - intros (r & Hr & Hp & Hm & He).
    destruct (Forall2_In_left _ Hall Hr) as (c' & Hc' & Hp').
    rewrite Hp in Hp'. injection Hp' as <-. auto.
Qed.

Example clean_sample_frame :
  clean parse_plain sample_frame = Ret [corolla_car].
Proof. reflexivity. Qed.

(** Line 51 needs a text among the titles: on a file whose title fields
    are all empty the column is read as floats and the script stops
    there. *)
Example clean_nameless :
  clean parse_plain [nameless] = Raise AttributeError
  /\ clean parse_plain [nameless; corolla] = Ret [nameless_car; corolla_car].
Proof. split; reflexivity. Qed.

(** An integer that is too large for a float is not coerced to NaN:
    line 39 raises on what line 33 made of 400 digits. *)
Example clean_astronomic :
  clean parse_plain [astronomic] = Raise OverflowError.
Proof. vm_compute. reflexivity. Qed.

(** C2: in every row of the cleaned dataset the engine capacity is a
    number in [600, 7000] or in [20, 150].  The cleaned dataset is the
    list of the source rows as lines 38-40 and 51 leave them, in order,
    without the rows that fail a range test: a row is kept as it is or
    dropped, and its engine capacity is never replaced by another
    value.  So a source row whose coerced engine capacity is outside
    both intervals, or is not a number, has no place in it. *)
Theorem engine_capacity_invariant (parse_number : cell -> option f64)
    (df : list (row cell)) (out : list car) :
  clean parse_number df = Ret out ->
  (forall c, In c out ->
     within 600 7000 (Dashboard.engine_capacity (listing c))
     \/ within 20 150 (Dashboard.engine_capacity (listing c)))
  /\ (exists all,
        mapM (prepare parse_number) df = Ret all
        /\ out = filter in_ranges all
        /\ forall c, in_ranges c = true
             <-> within 0 800000 (Dashboard.mileage (listing c))
                 /\ (within 600 7000 (Dashboard.engine_capacity (listing c))
                     \/ within 20 150 (Dashboard.engine_capacity (listing c))))
  /\ (forall r c, In r df -> prepare parse_number r = Ret c ->
        ~ (within 600 7000 (Dashboard.engine_capacity (listing c))
           \/ within 20 150 (Dashboard.engine_capacity (listing c))) ->
        ~ In c out)
  /\ (forall r c, In r df -> prepare parse_number r = Ret c ->
        Dashboard.engine_capacity (listing c) = NaN -> ~ In c out).
Proof.
  intros H.
  assert (Hin : forall c, In c out ->
            within 600 7000 (Dashboard.engine_capacity (listing c))
            \/ within 20 150 (Dashboard.engine_capacity (listing c))).
  { intros c Hc. apply (clean_In _ _ c H) in Hc.
    destruct Hc as (r & _ & _ & _ & He).
    apply engine_capacity_in_range_iff. exact He. }
  split; [exact Hin|]. split; [|split].
  - apply clean_prepared in H. destruct H as (_ & all & Hall & Hout).
    exists all. split; [exact Hall|]. split; [exact Hout | apply in_ranges_iff].
  - intros r c _ _ Hout Hc. apply Hout. apply Hin. exact Hc.
  - intros r c _ _ Hnan Hc.
    destruct (Hin c Hc) as [He | He]; apply within_not_nan in He; congruence.
Qed.

Lemma engine_capacity_invariant_witness :
  (within 600 7000 (Dashboard.engine_capacity (listing corolla_car))
   \/ within 20 150 (Dashboard.engine_capacity (listing corolla_car)))
  /\ ~ In no_capacity_car [corolla_car].
Proof.
  destruct (@engine_capacity_invariant parse_plain sample_frame [corolla_car] eq_refl)
    as (Hin & _ & _ & Hnan).
  split.
  - apply Hin. left. reflexivity.
  - apply (Hnan no_capacity).
    + right. right. left. reflexivity.
    + reflexivity.
    + reflexivity.
Defined.

(** C3: in every row of the cleaned dataset the mileage is a number in
    [0, 800000].  The cleaned dataset is the list of the source rows as
    lines 38-40 and 51 leave them, in order, without the rows that fail
    a range test: a row is kept as it is or dropped, and its mileage is
    never clamped.  So a source row whose coerced mileage is outside
    the interval has no place in it, whatever its other fields, and so a
    row with mileage 900000. *)
Theorem mileage_invariant (parse_number : cell -> option f64)
    (df : list (row cell)) (out : list car) :
  clean parse_number df = Ret out ->
  (forall c, In c out -> within 0 800000 (Dashboard.mileage (listing c)))
  /\ (exists all,
        mapM (prepare parse_number) df = Ret all
        /\ out = filter in_ranges all
        /\ forall c, in_ranges c = true
             <-> within 0 800000 (Dashboard.mileage (listing c))
                 /\ (within 600 7000 (Dashboard.engine_capacity (listing c))
                     \/ within 20 150 (Dashboard.engine_capacity (listing c))))
  /\ (forall r c, In r df -> prepare parse_number r = Ret c ->
        ~ within 0 800000 (Dashboard.mileage (listing c)) -> ~ In c out)
  /\ (forall r c, In r df -> prepare parse_number r = Ret c ->
        Dashboard.mileage (listing c) = of_int 900000 -> ~ In c out).
Proof.
  intros H.
  assert (Hin : forall c, In c out ->
            within 0 800000 (Dashboard.mileage (listing c))).
  { intros c Hc. apply (clean_In _ _ c H) in Hc.
    destruct Hc as (r & _ & _ & Hm & _).
    apply mileage_in_range_iff. exact Hm. }
  split; [exact Hin|]. split; [|split].
  - apply clean_prepared in H. destruct H as (_ & all & Hall & Hout).
    exists all. split; [exact Hall|]. split; [exact Hout | apply in_ranges_iff].
  - intros r c _ _ Hout Hc. apply Hout. apply Hin. exact Hc.
  - intros r c _ _ Hm Hc. destruct (Hin c Hc) as (q & Hq & _ & Hhi).
    rewrite Hm in Hq. injection Hq as <-.
    apply Qle_bool_iff in Hhi. discriminate Hhi.
Qed.

Lemma mileage_invariant_witness :
  within 0 800000 (Dashboard.mileage (listing corolla_car))
  /\ ~ In worn_out_car [corolla_car].
Proof.
  destruct (@mileage_invariant parse_plain sample_frame [corolla_car] eq_refl)
    as (Hin & _ & _ & Hfar).
  split.
  - apply Hin. left. reflexivity.
  - apply (Hfar worn_out).
    + right. left. reflexivity.
    + reflexivity.
    + reflexivity.
Defined.

(** C10: in every row of the cleaned dataset the mileage is a number.
    The cleaned dataset is the list of the source rows as lines 38-40
    and 51 leave them, in order, without the rows that fail a range
    test, and no mileage is put in place of a missing one: a source row
    whose mileage cell cannot be parsed, or is read as not-a-number, is
    coerced to NaN, fails the range test and has no place in the
    cleaned dataset. *)
Theorem mileage_never_missing (parse_number : cell -> option f64)
    (df : list (row cell)) (out : list car) :
  clean parse_number df = Ret out ->
  (forall c, In c out -> exists q, Dashboard.mileage (listing c) = Fin q)
  /\ (exists all,
        mapM (prepare parse_number) df = Ret all
        /\ out = filter in_ranges all
        /\ forall c, in_ranges c = true
             <-> within 0 800000 (Dashboard.mileage (listing c))
                 /\ (within 600 7000 (Dashboard.engine_capacity (listing c))
                     \/ within 20 150 (Dashboard.engine_capacity (listing c))))
  /\ (forall r c, In r df -> prepare parse_number r = Ret c ->
        parse_number (Dashboard.mileage r) = None
        \/ parse_number (Dashboard.mileage r) = Some NaN ->
        Dashboard.mileage (listing c) = NaN
        /\ mileage_in_range (listing c) = false
        /\ in_ranges c = false
        /\ ~ In c out).
Proof.
  intros H.
  assert (Hin : forall c, In c out ->
            within 0 800000 (Dashboard.mileage (listing c))).
  { intros c Hc. apply (clean_In _ _ c H) in Hc.
    destruct Hc as (r & _ & _ & Hm & _).
    apply mileage_in_range_iff. exact Hm. }
  split; [|split].
  - intros c Hc. destruct (Hin c Hc) as (q & Hq & _). exists q. exact Hq.
  - apply clean_prepared in H. destruct H as (_ & all & Hall & Hout).
    exists all. split; [exact Hall|]. split; [exact Hout | apply in_ranges_iff].
  - intros r c _ Hp Hparse.
    assert (Hnan : Dashboard.mileage (listing c) = NaN).
    { unfold prepare, clean_row in Hp.
      destruct (clean_engine_capacity (Dashboard.engine_capacity r)) as [v|];
        [|discriminate Hp].
      cbn [bind] in Hp. unfold coerce_row in Hp.
      cbn [Dashboard.engine_capacity Dashboard.mileage Dashboard.title
           Dashboard.year Dashboard.other] in Hp.
      destruct (to_numeric parse_number v) as [x|]; [|discriminate Hp].
      cbn [bind] in Hp.
      destruct (to_numeric parse_number (Dashboard.mileage r)) as [m|] eqn:Em;
        [|discriminate Hp].
      cbn [bind] in Hp. injection Hp as <-. simpl.
      unfold to_numeric in Em.
      destruct (Dashboard.mileage r) as [s | z | y];
        try destruct (float64_overflows z); try discriminate Em;
        destruct Hparse as [Hn | Hn]; rewrite Hn in Em; injection Em as <-;
        reflexivity. }
    split; [exact Hnan|].
    assert (Hm : mileage_in_range (listing c) = false)
      by (unfold mileage_in_range; rewrite Hnan; reflexivity).
    split; [exact Hm|]. split.
    + unfold in_ranges. rewrite Hm. reflexivity.
    + intros Hc. apply Hin, within_not_nan in Hc. contradiction.
Qed.

Lemma mileage_never_missing_witness :
  (exists q, Dashboard.mileage (listing corolla_car) = Fin q)
  /\ ~ In no_mileage_car [corolla_car].
Proof.
  destruct (@mileage_never_missing parse_plain sample_frame [corolla_car] eq_refl)
    as (Hin & _ & Hout).
  split.
  - apply Hin. left. reflexivity.
  - apply (Hout no_mileage).
    + right. right. right. left. reflexivity.
    + reflexivity.
    + left. reflexivity.
Defined.

(** ** The brand and year filter *)

Lemma brand_eqb_eq (a b : option str) : brand_eqb a b = true <-> a = b.
Proof.
  destruct a as [x|], b as [y|]; simpl; try (split; congruence).
  destruct (list_eq_dec ascii_dec x y); split; congruence.
Qed.

Lemma unique_In (l : list (option str)) (x : option str) :
  In x (unique l) <-> In x l.
Proof.
  induction l as [|b l IH]; [reflexivity|]. simpl.
  rewrite filter_In, IH. split.
  - intros [H | [H _]]; auto.
  - intros [H | H]; [auto|].
    destruct (brand_eqb x b) eqn:E.
    + left. symmetry. apply brand_eqb_eq. exact E.
    + right. auto.
Qed.

Lemma isin_In (b : option str) (values : list (option str)) :
  isin b values = true <-> In b values.
Proof.
  unfold isin. rewrite existsb_exists. split.
  - intros (x & Hx & E). apply brand_eqb_eq in E. subst x. exact Hx.
  - intros H. exists b. split; [exact H | apply brand_eqb_eq; reflexivity].
Qed.

Lemma isin_brands (df : list car) (c : car) :
  In c df -> isin (brand c) (brands df) = true.
Proof.
  intros H. apply isin_In. unfold brands. apply unique_In.
  apply in_map. exact H.
Qed.

Lemma fold_min_le_init (ys : list Z) (y : Z) : fold_left Z.min ys y <= y.
Proof.
  revert y. induction ys as [|z ys IH]; intros y; simpl; [lia|].
  specialize (IH (Z.min y z)). lia.
Qed.

Lemma fold_max_ge_init (ys : list Z) (y : Z) : y <= fold_left Z.max ys y.
Proof.
  revert y. induction ys as [|z ys IH]; intros y; simpl; [lia|].
  specialize (IH (Z.max y z)). lia.
Qed.

Lemma fold_min_le (ys : list Z) (y x : Z) :
  In x (y :: ys) -> fold_left Z.min ys y <= x.
Proof.
  revert y. induction ys as [|z ys IH]; intros y H.
  - destruct H as [-> | []]. simpl. lia.
  - cbn [fold_left]. destruct H as [-> | [-> | H]].
    + pose proof (fold_min_le_init ys (Z.min x z)). lia.
    + pose proof (fold_min_le_init ys (Z.min y x)). lia.
    + apply IH. right. exact H.
Qed.

Lemma fold_max_ge (ys : list Z) (y x : Z) :
  In x (y :: ys) -> x <= fold_left Z.max ys y.
Proof.
  revert y. induction ys as [|z ys IH]; intros y H.
  - destruct H as [-> | []]. simpl. lia.
  - cbn [fold_left]. destruct H as [-> | [-> | H]].
    + pose proof (fold_max_ge_init ys (Z.max x z)). lia.
    + pose proof (fold_max_ge_init ys (Z.max y x)). lia.
    + apply IH. right. exact H.
Qed.

Lemma years_In (df : list car) (c : car) (y : Z) :
  In c df -> Dashboard.year (listing c) = Some y -> In y (years df).
Proof.
  intros Hc Hy. unfold years. apply in_flat_map. exists c.
  rewrite Hy. split; [exact Hc | left; reflexivity].
Qed.

(** C6, as the code has it.  With every distinct brand selected and the
    year range left at the observed minimum and maximum, the filter
    returns the cleaned dataset itself when the frame has no [year]
    column, and otherwise the rows whose year is present, in order: a
    row with a missing year fails both comparisons and is left out.  It
    is the whole cleaned dataset when no year is missing. *)
Theorem full_selection (has_year : bool) (df : list car) (selected_years : Z * Z) :
  year_range has_year df = Ret selected_years ->
  apply_filters has_year df (brands df) selected_years
  = (if has_year then filter has_year_value df else df)
  /\ ((forall c, In c df -> Dashboard.year (listing c) <> None) ->
      apply_filters has_year df (brands df) selected_years = df).
Proof.
  intros H.
  assert (Hb : filter (fun c => isin (brand c) (brands df)) df = df).
  { apply forallb_filter_id, forallb_forall. intros c. apply isin_brands. }
  assert (E : apply_filters has_year df (brands df) selected_years
              = if has_year then filter has_year_value df else df).
  { unfold apply_filters. rewrite Hb. destruct has_year; [|reflexivity].
    apply filter_ext_in. intros c Hc. unfold year_between, has_year_value.
    destruct (Dashboard.year (listing c)) as [y|] eqn:Ey; [|reflexivity].
    unfold year_range in H. pose proof (years_In df c Hc Ey) as Hy.
    destruct (years df) as [|y0 ys]; [discriminate H|].
    injection H as <-. simpl fst. simpl snd.
    pose proof (fold_min_le Hy). pose proof (fold_max_ge Hy).
    apply andb_true_iff. split; apply Z.leb_le; assumption. }
  split; [exact E|].
  intros Hall. rewrite E. destruct has_year; [|reflexivity].
  apply forallb_filter_id, forallb_forall. intros c Hc.
  unfold has_year_value. specialize (Hall c Hc).
  destruct (Dashboard.year (listing c)); congruence.
Qed.

Lemma full_selection_witness :
  apply_filters true [corolla_car; civic_car]
    (brands [corolla_car; civic_car]) (2015, 2018)
  = [corolla_car; civic_car].
Proof.
  refine (proj2 (@full_selection true [corolla_car; civic_car] (2015, 2018) eq_refl) _).
  intros c [<- | [<- | []]]; discriminate.
Defined.

(** C6 as stated fails: with all brands and the whole observed year
    range selected, the row whose year is missing is not returned. *)
Lemma full_selection_drops_missing_year :
  let df := [corolla_car; leaf_car; civic_car] in
  year_range true df = Ret (2015, 2018)
  /\ apply_filters true df (brands df) (2015, 2018) = [corolla_car; civic_car]
  /\ apply_filters true df (brands df) (2015, 2018) <> df.
Proof. repeat split. discriminate. Qed.

(** With a [year] column and no year present (so on an empty cleaned
    dataset) line 64 raises before any filter is applied. *)
Example year_range_of_nothing :
  year_range true [] = Raise ValueError
  /\ year_range true [leaf_car] = Raise ValueError.
Proof. split; reflexivity. Qed.

(** C7: with no brand selected the filter returns no row, for every
    cleaned dataset and every year range, with or without a [year]
    column. *)
Theorem empty_selection (has_year : bool) (df : list car) (selected_years : Z * Z) :
  apply_filters has_year df [] selected_years = [].
Proof.
  unfold apply_filters.
  assert (filter (fun c => isin (brand c) []) df = []) as ->.
  { induction df as [|c df IH]; [reflexivity | exact IH]. }
  destruct has_year; reflexivity.
Qed.

(** ** Missing values on the persistence path *)

Lemma load_rows (parse_float : str -> option f64) (parse_int : str -> option Z)
    (repr_float : f64 -> str)
    (df : list LoadToDb.csv_row) (out : list LoadToDb.stored_row) :
  LoadToDb.load parse_float parse_int repr_float df = Ret out ->
  Forall2 (fun r s =>
             LoadToDb.insert_params parse_float parse_int repr_float
               (LoadToDb.row_values (LoadToDb.upcasts (LoadToDb.dtypes df))
                  (LoadToDb.fillna_row (LoadToDb.dtypes df) r)) = Ret s)
    df out.
Proof.
  unfold LoadToDb.load, LoadToDb.iterrows, LoadToDb.fillna.
  generalize (LoadToDb.upcasts (LoadToDb.dtypes df)) as up.
  generalize (LoadToDb.dtypes df) as dt. intros dt up. rewrite map_map.
  revert out. induction df as [|r df IH]; intros out H; simpl in H.
  - injection H as <-. constructor.
  - destruct (LoadToDb.insert_params _ _ _ _) as [s|e] eqn:Er; [|discriminate H].
    cbn [bind] in H.
    destruct (mapM _ _) as [ss|e]; [|discriminate H].
    injection H as <-. constructor; auto.
Qed.

(** The stored fields are the conversions of the cells the loop sees. *)
Lemma insert_params_fields (parse_float : str -> option f64) (parse_int : str -> option Z)
    (repr_float : f64 -> str)
    (row : LoadToDb.filled_row) (s : LoadToDb.stored_row) :
  LoadToDb.insert_params parse_float parse_int repr_float row = Ret s ->
  (forall col, In col LoadToDb.text_columns ->
     col _ _ _ s = LoadToDb.py_str repr_float (col _ _ _ row))
  /\ (forall col, In col LoadToDb.float_columns ->
        LoadToDb.py_float parse_float (col _ _ _ row) = Ret (col _ _ _ s))
  /\ LoadToDb.py_int parse_int (LoadToDb.year row) = Ret (LoadToDb.year s).
Proof.
  unfold LoadToDb.insert_params. intros H.
  destruct (LoadToDb.py_float parse_float (LoadToDb.price row)) as [p|] eqn:Ep;
    [|discriminate H].
  cbn [bind] in H.
  destruct (LoadToDb.py_int parse_int (LoadToDb.year row)) as [y|] eqn:Ey;
    [|discriminate H].
  cbn [bind] in H.
  destruct (LoadToDb.py_float parse_float (LoadToDb.mileage row)) as [m|] eqn:Em;
    [|discriminate H].
  cbn [bind] in H.
  destruct (LoadToDb.py_float parse_float (LoadToDb.engine_capacity row))
    as [c|] eqn:Ec; [|discriminate H].
  cbn [bind] in H. injection H as <-. split; [|split].
  - intros col Hcol. simpl in Hcol.
    repeat (destruct Hcol as [<- | Hcol]; [reflexivity|]). destruct Hcol.
  - intros col Hcol. simpl in Hcol.
    repeat (destruct Hcol as [<- | Hcol];
            [first [exact Ep | exact Em | exact Ec]|]).
    destruct Hcol.
  - reflexivity.
Qed.

(** The cell the loop sees in each column. *)
Lemma seen_fields (df : list LoadToDb.csv_row) (r : LoadToDb.csv_row) :
  let up := LoadToDb.upcasts (LoadToDb.dtypes df) in
  let row := LoadToDb.row_values up (LoadToDb.fillna_row (LoadToDb.dtypes df) r) in
  (forall col, In col LoadToDb.text_columns ->
     col _ _ _ row = seen up (dtype_of (map (col _ _ _) df)) (col _ _ _ r))
  /\ (forall col, In col LoadToDb.float_columns ->
        col _ _ _ row = seen up (dtype_of (map (col _ _ _) df)) (col _ _ _ r))
  /\ LoadToDb.year row
     = seen up (dtype_of (map (@LoadToDb.year _ _ _) df)) (LoadToDb.year r).
Proof.
  cbv zeta. split; [|split].
  - intros col Hcol. simpl in Hcol.
    repeat (destruct Hcol as [<- | Hcol]; [reflexivity|]). destruct Hcol.
  - intros col Hcol. simpl in Hcol.
    repeat (destruct Hcol as [<- | Hcol]; [reflexivity|]). destruct Hcol.
  - reflexivity.
Qed.

Lemma round_double_small (z : Z) : Z.abs z < 2 ^ 53 -> round_double z = z.
Proof.
  intros H. unfold round_double. cbv zeta.
  assert ((Z.log2 (Z.abs z) + 1 <=? 53) = true) as ->; [|reflexivity].
  apply Z.leb_le. destruct (Z.eq_dec (Z.abs z) 0) as [-> | Hz].
  - simpl. lia.
  - assert (Z.log2 (Z.abs z) < 53); [|lia].
    apply Z.log2_lt_pow2; lia.
Qed.

Lemma small_no_overflow (z : Z) : Z.abs z < 2 ^ 53 -> float64_overflows z = false.
Proof.
  intros H. unfold float64_overflows. apply Z.leb_gt.
  assert (2 ^ 53 <= 2 ^ 1024 - 2 ^ 970) by (apply Z.leb_le; reflexivity).
  generalize dependent (2 ^ 1024 - 2 ^ 970). generalize dependent (2 ^ 53).
  intros. lia.
Qed.

Lemma to_double_small (z : Z) : Z.abs z < 2 ^ 53 -> to_double z = of_int z.
Proof. intros H. unfold to_double. rewrite (round_double_small z H). reflexivity. Qed.

(** C5, as the code has it.  Every missing value of a row is replaced by
    the number 0 before the insert: a missing value of a floating-point
    column is stored as 0 and a missing year as 0.  A missing value of a
    text column is stored as the text of that zero: "0" when the column
    holds a text somewhere in the file (its dtype is [object] and the
    zero is an integer), "0.0" when it holds none (the column was read
    as floats); never the empty text. *)
Theorem missing_values_stored_as_zero (parse_float : str -> option f64) (parse_int : str -> option Z)
    (repr_float : f64 -> str)
    (df : list LoadToDb.csv_row) (out : list LoadToDb.stored_row) :
  LoadToDb.load parse_float parse_int repr_float df = Ret out ->
  Forall2 (zero_filled df) df out.
Proof.
  intros H. apply load_rows in H.
  eapply Forall2_impl; [|exact H]. clear out H. intros r s H.
  apply insert_params_fields in H. destruct H as (Ht & Hf & Hy).
  destruct (seen_fields df r) as (St & Sf & Sy).
  unfold zero_filled. split; [|split].
  - intros col Hcol Hnan. rewrite (Ht col Hcol), (St col Hcol), Hnan.
    unfold is_object, seen. simpl.
    destruct (dtype_of (map (col _ _ _) df)); reflexivity.
  - intros col Hcol Hnan. specialize (Hf col Hcol).
    rewrite (Sf col Hcol), Hnan in Hf. unfold seen in Hf. simpl in Hf.
    injection Hf as <-. reflexivity.
  - intros Hnan. rewrite Sy, Hnan in Hy. unfold seen in Hy. simpl in Hy.
    injection Hy as <-. reflexivity.
Qed.

Lemma missing_values_stored_as_zero_witness :
  Forall2 (zero_filled [untitled; listed])
    [untitled; listed] [untitled_stored; listed_stored].
Proof.
  exact (@missing_values_stored_as_zero plain_float plain_digits plain_repr
           [untitled; listed] [untitled_stored; listed_stored] eq_refl).
Defined.

(** C5 as stated fails on the text columns: in a file with titles, the
    missing title of [untitled] is stored as the text "0", not as the
    empty text. *)
Lemma missing_title_stored_as_text_zero :
  LoadToDb.load plain_float plain_digits plain_repr [untitled; listed]
  = Ret [untitled_stored; listed_stored]
  /\ LoadToDb.title untitled = VFloat NaN
  /\ LoadToDb.title untitled_stored = lit "0"
  /\ LoadToDb.title untitled_stored <> [].
Proof. repeat split. discriminate. Qed.

(** In a file whose titles are all missing the column is read as floats
    and the stored text is "0.0". *)
Example missing_title_of_empty_column :
  match LoadToDb.load plain_float plain_digits plain_repr [untitled] with
  | Ret [s] => LoadToDb.title s = lit "0.0"
  | _ => False
  end.
Proof. reflexivity. Qed.

(** A text in a numeric column stops the loop at its row. *)
Example unit_text_stops_the_load :
  LoadToDb.load plain_float plain_digits plain_repr [listed; with_unit]
  = Raise ValueError.
Proof. reflexivity. Qed.

(** * Further properties of the code *)

(** ** The engine-capacity normalizer, continued *)

Lemma lower_char_digit (c : ascii) : isdigit c = true -> lower_char c = c.
Proof.
  destruct c as [[] [] [] [] [] [] [] []]; vm_compute; intros H;
    first [discriminate H | reflexivity].
Qed.

Lemma lower_char_not_digit (c : ascii) :
  isdigit c = false -> isdigit (lower_char c) = false.
Proof.
  destruct c as [[] [] [] [] [] [] [] []]; vm_compute; intros H;
    first [discriminate H | reflexivity].
Qed.

Lemma digit_not_space (c : ascii) : isdigit c = true -> Ascii.eqb c " " = false.
Proof.
  destruct c as [[] [] [] [] [] [] [] []]; vm_compute; intros H;
    first [discriminate H | reflexivity].
Qed.

Lemma decimal_digit_value (c : ascii) : isdecimal c = true -> 0 <= digit_value c <= 9.
Proof.
  destruct c as [[] [] [] [] [] [] [] []]; vm_compute; intros H;
    first [discriminate H | split; discriminate].
Qed.

(** Lower-casing and the removal of spaces leave the digit characters of
    a text as they are: line 30 collects the digit characters of the
    original value. *)
Lemma collected_digits (s : str) :
  filter isdigit (replace " " [] (lower s)) = filter isdigit s.
Proof.
  rewrite replace_space_empty. unfold lower.
  induction s as [|c s IH]; [reflexivity|]. cbn [map filter].
  destruct (isdigit c) eqn:Ec.
  - rewrite (lower_char_digit c Ec), (digit_not_space c Ec). cbn [negb filter].
    rewrite Ec, IH. reflexivity.
  - pose proof (lower_char_not_digit c Ec) as El.
    destruct (negb (Ascii.eqb (lower_char c) " ")); cbn [filter];
      rewrite ?El; exact IH.
Qed.

Lemma forallb_false {A : Type} (f : A -> bool) (l : list A) :
  forallb f l = false <-> exists x, In x l /\ f x = false.
Proof.
  induction l as [|a l IH]; simpl.
  - split; [discriminate | intros (x & [] & _)].
  - rewrite andb_false_iff, IH. split.
    + intros [H | (x & Hx & E)]; [exists a | exists x]; auto.
    + intros (x & [-> | Hx] & E); [left | right; exists x]; auto.
Qed.

Lemma int_raise (ds : str) (e : exn) :
  int ds = Raise e
  <-> e = ValueError
      /\ ((exists c, In c ds /\ isdecimal c = false)
          \/ (int_max_str_digits < List.length ds)%nat).
Proof.
  unfold int.
  destruct (forallb isdecimal ds) eqn:Ef;
    destruct (List.length ds <=? int_max_str_digits)%nat eqn:El; simpl.
  - split; [discriminate|]. intros (_ & [(c & Hc & E) | H]).
    + rewrite forallb_forall in Ef. rewrite (Ef c Hc) in E. discriminate E.
    + apply Nat.leb_le in El. lia.
  - apply Nat.leb_gt in El. split.
    + intros H. injection H as <-. auto.
    + intros (-> & _). reflexivity.
  - apply forallb_false in Ef. split.
    + intros H. injection H as <-. auto.
    + intros (-> & _). reflexivity.
  - apply forallb_false in Ef. split.
    + intros H. injection H as <-. auto.
    + intros (-> & _). reflexivity.
Qed.

Lemma number_nonneg (ds : str) :
  (forall c, In c ds -> isdecimal c = true) -> 0 <= number ds.
Proof.
  induction ds as [|d ds IH]; intros H; simpl; [lia|].
  pose proof (decimal_digit_value d (H d (or_introl eq_refl))).
  specialize (IH (fun c Hc => H c (or_intror Hc))).
  assert (0 <= 10 ^ Z.of_nat (List.length ds)) by (apply Z.pow_nonneg; lia).
  nia.
Qed.

(** The three ways line 28-36 leave a text. *)
Lemma clean_engine_capacity_text (s : str) :
  let v := replace " " [] (lower s) in
  let ds := filter isdigit s in
  match ds with
  | [] => clean_engine_capacity (VStr s) = Ret (VFloat NaN)
  | _ :: _ =>
      clean_engine_capacity (VStr s)
      = (num <- int ds ;;
         if contains (lit "cc") v || contains (lit "kwh") v
            || contains (lit "kw") v
         then Ret (VInt num) else Ret (VStr s))
  end.
Proof.
  cbv zeta. unfold clean_engine_capacity. rewrite collected_digits.
  destruct (filter isdigit s); reflexivity.
Qed.

(** X1: a text comes out as a missing value exactly when it holds no
    digit character at all. *)
Theorem clean_engine_capacity_missing_iff (s : str) :
  clean_engine_capacity (VStr s) = Ret (VFloat NaN)
  <-> forall c, In c s -> isdigit c = false.
Proof.
  pose proof (clean_engine_capacity_text s) as H. cbv zeta in H.
  destruct (filter isdigit s) as [|d ds] eqn:E.
  - split; [|intros _; exact H]. intros _ c Hc.
    destruct (isdigit c) eqn:Ec; [|reflexivity].
    assert (In c (filter isdigit s)) as Hin by (apply filter_In; auto).
    rewrite E in Hin. contradiction.
  - split.
    + rewrite H. destruct (int (d :: ds)); cbn [bind]; [|discriminate].
      destruct (_ || _); discriminate.
    + intros Hno. assert (In d (filter isdigit s)) as Hin
        by (rewrite E; left; reflexivity).
      apply filter_In in Hin. destruct Hin as [Hin Hd].
      rewrite (Hno d Hin) in Hd. discriminate Hd.
Qed.

(** X2: the normalizer raises exactly on a text that holds a digit
    character [int] does not read (a superscript digit) or more digit
    characters than [int] converts; the exception is [ValueError].  A
    value that is not a text never raises. *)
Theorem clean_engine_capacity_raise_iff (value : cell) (e : exn) :
  clean_engine_capacity value = Raise e
  <-> e = ValueError
      /\ exists s, value = VStr s
           /\ ((exists c, In c s /\ isdigit c = true /\ isdecimal c = false)
               \/ (int_max_str_digits < List.length (filter isdigit s))%nat).
Proof.
  destruct value as [s | z | x].
  2,3: split; [discriminate | intros (_ & s & H & _); discriminate H].
  pose proof (clean_engine_capacity_text s) as H. cbv zeta in H.
  destruct (filter isdigit s) as [|d ds] eqn:E.
  - rewrite H. split; [discriminate|].
    intros (_ & s' & Hs & [(c & Hc & Hd & _) | Hlen]).
    + injection Hs as <-.
      assert (In c (filter isdigit s)) as Hin by (apply filter_In; auto).
      rewrite E in Hin. contradiction.
    + injection Hs as <-. rewrite E in Hlen. simpl in Hlen.
      unfold int_max_str_digits in Hlen. lia.
  - rewrite H. rewrite <- E. split.
    + intros Hr. destruct (int (filter isdigit s)) as [n|e'] eqn:Ei.
      * cbn [bind] in Hr. destruct (_ || _); discriminate Hr.
      * cbn [bind] in Hr. injection Hr as <-.
        apply int_raise in Ei. destruct Ei as (-> & Hwhy).
        split; [reflexivity|]. exists s. split; [reflexivity|].
        destruct Hwhy as [(c & Hc & Hd) | Hlen]; [left | right; exact Hlen].
        apply filter_In in Hc. exists c. tauto.
    + intros (-> & s' & Hs & Hwhy). injection Hs as <-.
      assert (int (filter isdigit s) = Raise ValueError) as ->; [|reflexivity].
      apply int_raise. split; [reflexivity|].
      destruct Hwhy as [(c & Hc & Hd & Hn) | Hlen]; [left | right; exact Hlen].
      exists c. split; [apply filter_In; auto | exact Hn].
Qed.

(** X3: a number returned for a text is never negative, whatever sign
    the text shows; it is the number its digit characters denote, and a
    unit token stands in the normalized text. *)
Theorem clean_engine_capacity_number (s : str) (n : Z) :
  clean_engine_capacity (VStr s) = Ret (VInt n) ->
  0 <= n
  /\ n = number (filter isdigit s)
  /\ has_unit (replace " " [] (lower s)).
Proof.
  pose proof (clean_engine_capacity_text s) as H. cbv zeta in H.
  destruct (filter isdigit s) as [|d ds] eqn:E.
  - rewrite H. discriminate.
  - rewrite H. unfold int.
    destruct (forallb isdecimal (d :: ds)) eqn:Ef; [|discriminate].
    destruct (List.length (d :: ds) <=? int_max_str_digits)%nat; [|discriminate].
    cbn [andb bind]. rewrite fold_digits, Z.mul_0_l, Z.add_0_l.
    destruct (_ || _) eqn:Eu; [|discriminate].
    intros Hn. injection Hn as <-. rewrite forallb_forall in Ef.
    split; [exact (@number_nonneg (d :: ds) Ef)|]. split; [reflexivity|].
    unfold has_unit. rewrite <- !contains_occurs.
    rewrite !orb_true_iff in Eu. tauto.
Qed.

Lemma clean_engine_capacity_number_witness :
  0 <= 1300
  /\ 1300 = number (filter isdigit (lit "-1300 CC"))
  /\ has_unit (replace " " [] (lower (lit "-1300 CC"))).
Proof. exact (@clean_engine_capacity_number (lit "-1300 CC") 1300 eq_refl). Defined.

(** X4: normalizing a second time changes nothing: on its own result the
    normalizer returns that result. *)
Theorem clean_engine_capacity_idempotent (value v : cell) :
  clean_engine_capacity value = Ret v -> clean_engine_capacity v = Ret v.
Proof.
  destruct value as [s | z | x]; try (intros H; injection H as <-; reflexivity).
  intros H. pose proof (clean_engine_capacity_text s) as Ht. cbv zeta in Ht.
  destruct (filter isdigit s) as [|d ds].
  - rewrite Ht in H. injection H as <-. reflexivity.
  - pose proof H as H'. rewrite Ht in H'.
    destruct (int (d :: ds)); cbn [bind] in H'; [|discriminate H'].
    destruct (_ || _); injection H' as <-; [reflexivity | exact H].
Qed.

Lemma clean_engine_capacity_idempotent_witness :
  clean_engine_capacity (VInt 1300) = Ret (VInt 1300).
Proof.
  exact (@clean_engine_capacity_idempotent (VStr (lit "1300cc")) (VInt 1300) eq_refl).
Defined.

Lemma clean_engine_capacity_missing_iff_witness :
  clean_engine_capacity (VStr (lit "n/a")) = Ret (VFloat NaN).
Proof.
  apply (proj2 (clean_engine_capacity_missing_iff (lit "n/a"))).
  intros c Hc. simpl in Hc.
  repeat (destruct Hc as [<- | Hc]; [reflexivity|]). contradiction.
Defined.

Lemma clean_engine_capacity_raise_iff_witness :
  ValueError = ValueError
  /\ exists s, VStr (lit "1300cm" ++ ["179"%char]) = VStr s
       /\ ((exists c, In c s /\ isdigit c = true /\ isdecimal c = false)
           \/ (int_max_str_digits < List.length (filter isdigit s))%nat).
Proof.
  exact (proj1 (clean_engine_capacity_raise_iff
                  (VStr (lit "1300cm" ++ ["179"%char])) ValueError) eq_refl).
Defined.

(** ** The cleaning pipeline, continued *)

Lemma clean_engine_capacity_exn (value : cell) (e : exn) :
  clean_engine_capacity value = Raise e -> e = ValueError.
Proof.
  destruct value as [s | z | x]; try discriminate.
  pose proof (clean_engine_capacity_text s) as H. cbv zeta in H.
  destruct (filter isdigit s) as [|d ds]; rewrite H; [discriminate|].
  destruct (int (d :: ds)) as [n|e'] eqn:Ei; cbn [bind].
  - destruct (_ || _); discriminate.
  - intros Hr. injection Hr as <-. apply int_raise in Ei. tauto.
Qed.

Lemma mapM_app {A B : Type} (f : A -> result B) (l1 l2 : list A) :
  mapM f (l1 ++ l2)
  = (a <- mapM f l1 ;; b <- mapM f l2 ;; Ret (a ++ b)).
Proof.
  induction l1 as [|x l1 IH]; simpl.
  - destruct (mapM f l2); reflexivity.
  - destruct (f x); cbn [bind]; [|reflexivity]. rewrite IH.
    destruct (mapM f l1); cbn [bind]; [|reflexivity].
    destruct (mapM f l2); reflexivity.
Qed.

Lemma mapM_raise {A B : Type} (f : A -> result B) (l : list A) (e : exn) :
  mapM f l = Raise e -> exists a, In a l /\ f a = Raise e.
Proof.
  induction l as [|x l IH]; simpl; [discriminate|].
  destruct (f x) as [b|e'] eqn:Ex; cbn [bind].
  - destruct (mapM f l) as [bs|e'']; cbn [bind]; [discriminate|].
    intros H. injection H as <-. destruct (IH eq_refl) as (a & Ha & Hf).
    exists a. auto.
  - intros H. injection H as <-. exists x. auto.
Qed.

Lemma mapM_raises {A B : Type} (f : A -> result B) (l : list A) (a : A) (e : exn) :
  In a l -> f a = Raise e -> exists e', mapM f l = Raise e'.
Proof.
  induction l as [|x l IH]; intros Ha Hf; [contradiction|]. simpl.
  destruct (f x) as [b|e'] eqn:Ex; cbn [bind]; [|eauto].
  destruct Ha as [-> | Ha]; [congruence|].
  destruct (IH Ha Hf) as [e' ->]. cbn [bind]. eauto.
Qed.

Lemma mapM_returns {A B : Type} (f : A -> result B) (l : list A) :
  (forall a, In a l -> exists b, f a = Ret b) -> exists out, mapM f l = Ret out.
Proof.
  induction l as [|a l IH]; intros H; [eexists; reflexivity|]. cbn [mapM].
  destruct (H a (or_introl eq_refl)) as [b ->].
  destruct IH as [out ->]; [intros x Hx; apply H; right; exact Hx|].
  eexists. reflexivity.
Qed.

Lemma to_numeric_raise (parse_number : cell -> option f64) (v : cell) (e : exn) :
  to_numeric parse_number v = Raise e <-> e = OverflowError /\ overflows v = true.
Proof.
  unfold to_numeric, overflows. destruct v as [s | z | x].
  - split; [discriminate | intros [_ H]; discriminate H].
  - destruct (float64_overflows z).
    + split; [intros H; injection H as <-; auto | intros [-> _]; reflexivity].
    + split; [discriminate | intros [_ H]; discriminate H].
  - split; [discriminate | intros [_ H]; discriminate H].
Qed.

Lemma coerce_row_raise (parse_number : cell -> option f64) (r : row cell) (e : exn) :
  coerce_row parse_number r = Raise e
  <-> e = OverflowError
      /\ (overflows (Dashboard.engine_capacity r) = true
          \/ overflows (Dashboard.mileage r) = true).
Proof.
  unfold coerce_row.
  destruct (to_numeric parse_number (Dashboard.engine_capacity r)) as [c|e1] eqn:Ec;
    cbn [bind].
  - destruct (to_numeric parse_number (Dashboard.mileage r)) as [m|e2] eqn:Em;
      cbn [bind].
    + split; [discriminate|]. intros (_ & [H | H]).
      * assert (to_numeric parse_number (Dashboard.engine_capacity r)
                = Raise OverflowError) as E by (apply to_numeric_raise; auto).
        congruence.
      * assert (to_numeric parse_number (Dashboard.mileage r)
                = Raise OverflowError) as E by (apply to_numeric_raise; auto).
        congruence.
    + apply to_numeric_raise in Em. destruct Em as [-> Hm]. split.
      * intros H. injection H as <-. auto.
      * intros [-> _]. reflexivity.
  - apply to_numeric_raise in Ec. destruct Ec as [-> Hc]. split.
    + intros H. injection H as <-. auto.
    + intros [-> _]. reflexivity.
Qed.

Lemma clean_row_ret (r r' : row cell) :
  clean_row r = Ret r'
  <-> exists v, clean_engine_capacity (Dashboard.engine_capacity r) = Ret v
                /\ Dashboard.engine_capacity r' = v
                /\ Dashboard.mileage r' = Dashboard.mileage r
                /\ r' = {| Dashboard.title := Dashboard.title r;
                           Dashboard.year := Dashboard.year r;
                           Dashboard.mileage := Dashboard.mileage r;
                           Dashboard.engine_capacity := v;
                           Dashboard.other := Dashboard.other r |}.
Proof.
  unfold clean_row.
  destruct (clean_engine_capacity (Dashboard.engine_capacity r)) as [v|e];
    cbn [bind].
  - split.
    + intros H. injection H as <-. exists v. auto.
    + intros (v' & E & _ & _ & ->). injection E as <-. reflexivity.
  - split; [discriminate | intros (v' & E & _); discriminate E].
Qed.

Lemma clean_row_raise (r : row cell) (e : exn) :
  clean_row r = Raise e
  <-> clean_engine_capacity (Dashboard.engine_capacity r) = Raise e.
Proof.
  unfold clean_row.
  destruct (clean_engine_capacity (Dashboard.engine_capacity r)); cbn [bind];
    split; congruence.
Qed.

(** X5: the three ways the cleaning stops with an exception.  It raises
    [ValueError] exactly when the normalizer raises on the engine
    capacity of some row.  It raises [OverflowError] exactly when the
    normalizer returns on every row and [pd.to_numeric] meets an integer
    too large for a float, in what the normalizer returned or in a
    mileage.  It raises [AttributeError] exactly when every row passes
    both and no title of the frame is a text. *)
Theorem clean_raise_iff (parse_number : cell -> option f64)
    (df : list (row cell)) (e : exn) :
  clean parse_number df = Raise e
  <-> (e = ValueError
       /\ exists r, In r df
            /\ clean_engine_capacity (Dashboard.engine_capacity r)
               = Raise ValueError)
      \/ (e = OverflowError
          /\ (forall r, In r df ->
                exists v, clean_engine_capacity (Dashboard.engine_capacity r)
                          = Ret v)
          /\ exists r v, In r df
               /\ clean_engine_capacity (Dashboard.engine_capacity r) = Ret v
               /\ (overflows v = true \/ overflows (Dashboard.mileage r) = true))
      \/ (e = AttributeError
          /\ (forall r, In r df -> exists c, prepare parse_number r = Ret c)
          /\ is_object (map (@Dashboard.title cell) df) = false).
Proof.
  unfold clean, apply_clean. cbv zeta.
  destruct (mapM clean_row df) as [d1|e1] eqn:E1; cbn [bind].
  - pose proof (mapM_Forall2 _ _ E1) as F1.
    assert (Hret : forall r, In r df ->
              exists v, clean_engine_capacity (Dashboard.engine_capacity r) = Ret v).
    { intros r Hr. destruct (Forall2_In_left _ F1 Hr) as (r' & _ & Hc).
      apply clean_row_ret in Hc. destruct Hc as (v & Hv & _). eauto. }
    assert (Hno : ~ exists r, In r df
                    /\ clean_engine_capacity (Dashboard.engine_capacity r)
                       = Raise ValueError).
    { intros (r & Hr & Hc). destruct (Hret r Hr) as [v Hv]. congruence. }
    destruct (mapM (coerce_row parse_number) d1) as [d2|e2] eqn:E2; cbn [bind].
    + pose proof (mapM_Forall2 _ _ E2) as F2.
      assert (Hprep : forall r, In r df -> exists c, prepare parse_number r = Ret c).
      { intros r Hr. destruct (Forall2_In_left _ F1 Hr) as (r' & Hr' & Hc).
        destruct (Forall2_In_left _ F2 Hr') as (r'' & _ & Hc').
        exists (add_brand r''). unfold prepare. rewrite Hc. cbn [bind].
        rewrite Hc'. reflexivity. }
      unfold add_brands.
      destruct (is_object (map (@Dashboard.title cell) df)) eqn:Eo.
      * split; [discriminate|].
        intros [(_ & H) | [(_ & _ & r & v & Hr & Hv & Hov) | (_ & _ & H)]].
        -- elim Hno. exact H.
        -- destruct (Forall2_In_left _ F1 Hr) as (r' & Hr' & Hc).
           destruct (Forall2_In_left _ F2 Hr') as (r'' & _ & Hc').
           apply clean_row_ret in Hc. destruct Hc as (v' & Hv' & Hec & Hmi & _).
           assert (coerce_row parse_number r' = Raise OverflowError) as E.
           { apply coerce_row_raise. split; [reflexivity|].
             rewrite Hec, Hmi. congruence. }
           congruence.
        -- discriminate H.
      * split.
        -- intros H. injection H as <-. right. right. auto.
        -- intros [(_ & H) | [(_ & _ & r & v & Hr & Hv & Hov) | (-> & _)]].
           ++ elim Hno. exact H.
           ++ destruct (Forall2_In_left _ F1 Hr) as (r' & Hr' & Hc).
              destruct (Forall2_In_left _ F2 Hr') as (r'' & _ & Hc').
              apply clean_row_ret in Hc.
              destruct Hc as (v' & Hv' & Hec & Hmi & _).
              assert (coerce_row parse_number r' = Raise OverflowError) as E.
              { apply coerce_row_raise. split; [reflexivity|].
                rewrite Hec, Hmi. congruence. }
              congruence.
           ++ reflexivity.
    + pose proof E2 as E2'. apply mapM_raise in E2'.
      destruct E2' as (r' & Hr' & Hc').
      apply coerce_row_raise in Hc'. destruct Hc' as (-> & Hov).
      destruct (Forall2_In_right _ F1 Hr') as (r & Hr & Hc).
      apply clean_row_ret in Hc. destruct Hc as (v & Hv & Hec & Hmi & _).
      rewrite Hec, Hmi in Hov. split.
      * intros H. injection H as <-. right. left.
        split; [reflexivity|]. split; [exact Hret|]. exists r, v. auto.
      * intros [(_ & H) | [(-> & _) | (_ & Hprep & _)]].
        -- elim Hno. exact H.
        -- reflexivity.
        -- destruct (Hprep r Hr) as [c Hp]. unfold prepare in Hp.
           destruct (clean_row r) as [r0|] eqn:Ec; [|discriminate Hp].
           cbn [bind] in Hp. apply clean_row_ret in Ec.
           destruct Ec as (v0 & Hv0 & Hec0 & Hmi0 & _).
           assert (coerce_row parse_number r0 = Raise OverflowError) as E.
           { apply coerce_row_raise. split; [reflexivity|].
             rewrite Hec0, Hmi0. congruence. }
           rewrite E in Hp. discriminate Hp.
  - pose proof E1 as E1'. apply mapM_raise in E1'.
    destruct E1' as (r & Hr & Hc). apply clean_row_raise in Hc.
    pose proof (clean_engine_capacity_exn _ Hc) as ->. split.
    + intros H. injection H as <-. left. eauto.
    + intros [(-> & _) | [(_ & Hret & _) | (_ & Hprep & _)]].
      * reflexivity.
      * destruct (Hret r Hr) as [v Hv]. congruence.
      * destruct (Hprep r Hr) as [c Hp]. unfold prepare, clean_row in Hp.
        rewrite Hc in Hp. discriminate Hp.
Qed.

Lemma clean_raise_iff_witness :
  clean parse_plain (sample_frame ++ [cubic]) = Raise ValueError.
Proof.
  apply (proj2 (clean_raise_iff parse_plain (sample_frame ++ [cubic]) ValueError)).
  left. split; [reflexivity|]. exists cubic. split; [|reflexivity].
  apply in_or_app. right. left. reflexivity.
Defined.

(** X6: the rows line 48 would drop are already gone: the outlier
    removal is the two range masks and nothing more, and the order in
    which the masks are applied does not matter. *)
Theorem dropna_removes_nothing (df : list (row f64)) :
  remove_outliers df
  = filter (fun r => mileage_in_range r && engine_capacity_in_range r) df
  /\ remove_outliers df
     = filter mileage_in_range (filter engine_capacity_in_range df).
Proof.
  assert (E : remove_outliers df
              = filter (fun r => mileage_in_range r && engine_capacity_in_range r) df).
  { unfold remove_outliers. rewrite forallb_filter_id.
    - apply filter_twice.
    - apply forallb_forall. intros r Hr. apply filter_In in Hr.
      destruct Hr as [_ He]. apply engine_capacity_in_range_iff in He.
      destruct (Dashboard.engine_capacity r) eqn:Ec; try reflexivity.
      destruct He as [He | He]; apply within_not_nan in He; congruence. }
  split; [exact E|]. rewrite E, filter_twice.
  apply filter_ext. intros r. apply andb_comm.
Qed.

Lemma is_object_iff (column : list cell) :
  is_object column = true <-> column = [] \/ existsb is_text column = true.
Proof.
  unfold is_object, dtype_of. destruct column as [|c column].
  - split; auto.
  - destruct (existsb is_text (c :: column)).
    + split; auto.
    + destruct (existsb is_float (c :: column));
        (split; [discriminate | intros [H | H]; discriminate H]).
Qed.

Lemma is_object_app (c1 c2 : list cell) :
  is_object c1 = true -> is_object c2 = true -> is_object (c1 ++ c2) = true.
Proof.
  rewrite !is_object_iff, existsb_app, orb_true_iff.
  intros [-> | H1] [-> | H2]; rewrite ?app_nil_r; simpl; auto.
Qed.

(** X7: the pipeline works row by row and keeps the order: the cleaned
    dataset of two frames put one after the other is the cleaned
    dataset of the first followed by that of the second. *)
Theorem clean_app (parse_number : cell -> option f64)
    (df1 df2 : list (row cell)) (out1 out2 : list car) :
  clean parse_number df1 = Ret out1 ->
  clean parse_number df2 = Ret out2 ->
  clean parse_number (df1 ++ df2) = Ret (out1 ++ out2).
Proof.
  intros H1 H2. apply clean_prepared in H1, H2.
  destruct H1 as (O1 & all1 & A1 & ->). destruct H2 as (O2 & all2 & A2 & ->).
  apply clean_prepared. split.
  - rewrite map_app. apply is_object_app; assumption.
  - exists (all1 ++ all2). split.
    + rewrite mapM_app, A1, A2. reflexivity.
    + symmetry. apply filter_app.
Qed.

Lemma clean_app_witness :
  clean parse_plain (sample_frame ++ [leaf]) = Ret ([corolla_car] ++ [leaf_car]).
Proof.
  exact (@clean_app parse_plain sample_frame [leaf] [corolla_car] [leaf_car]
           eq_refl eq_refl).
Defined.

(** X8: nothing else is dropped: a source row on which the normalizer
    returns and whose coerced mileage lies in [0, 800000] and coerced
    engine capacity in [600, 7000] or [20, 150] is in the cleaned
    dataset, with its brand. *)
Theorem clean_keeps (parse_number : cell -> option f64)
    (df : list (row cell)) (out : list car) (r : row cell) (c : car) :
  clean parse_number df = Ret out ->
  In r df ->
  prepare parse_number r = Ret c ->
  within 0 800000 (Dashboard.mileage (listing c)) ->
  within 600 7000 (Dashboard.engine_capacity (listing c))
  \/ within 20 150 (Dashboard.engine_capacity (listing c)) ->
  In c out /\ brand c = extract_brand (Dashboard.title r).
Proof.
  intros H Hr Hp Hm He. split.
  - apply (clean_In _ _ c H). exists r.
    rewrite mileage_in_range_iff, engine_capacity_in_range_iff. auto.
  - unfold prepare, clean_row in Hp.
    destruct (clean_engine_capacity (Dashboard.engine_capacity r));
      [|discriminate Hp].
    cbn [bind] in Hp. unfold coerce_row in Hp.
    destruct (to_numeric parse_number _); [|discriminate Hp].
    cbn [bind] in Hp.
    destruct (to_numeric parse_number _); [|discriminate Hp].
    cbn [bind] in Hp. injection Hp as <-. reflexivity.
Qed.

Lemma clean_keeps_witness :
  In leaf_car [corolla_car; leaf_car]
  /\ brand leaf_car = extract_brand (Dashboard.title leaf).
Proof.
  refine (@clean_keeps parse_plain (sample_frame ++ [leaf]) [corolla_car; leaf_car]
            leaf leaf_car eq_refl _ eq_refl _ _).
  - apply in_or_app. right. left. reflexivity.
  - exists (inject_Z 20000). repeat split; discriminate.
  - right. exists (inject_Z 50). repeat split; discriminate.
Defined.

(** ** The sidebar and the filters, continued *)

Lemma unique_NoDup (l : list (option str)) : NoDup (unique l).
Proof.
  induction l as [|b l IH]; simpl; constructor.
  - intros H. apply filter_In in H. destruct H as [_ H].
    assert (brand_eqb b b = true) as E by (apply brand_eqb_eq; reflexivity).
    rewrite E in H. discriminate H.
  - apply NoDup_filter. exact IH.
Qed.

(** X9: the options of the brand selector are the brands of the cleaned
    dataset, each listed once; a missing brand is one of them when some
    title is missing. *)
Theorem brands_distinct (df : list car) :
  NoDup (brands df)
  /\ forall b, In b (brands df) <-> exists c, In c df /\ brand c = b.
Proof.
  split; [apply unique_NoDup|]. intros b. unfold brands.
  rewrite unique_In, in_map_iff. split; intros (c & H1 & H2); exists c; auto.
Qed.

Lemma fold_min_In (ys : list Z) (y : Z) : In (fold_left Z.min ys y) (y :: ys).
Proof.
  revert y. induction ys as [|z ys IH]; intros y; [left; reflexivity|].
  cbn [fold_left]. destruct (IH (Z.min y z)) as [H | H].
  - rewrite <- H. destruct (Z.min_spec y z) as [[_ E] | [_ E]]; rewrite E.
    + left. reflexivity.
    + right. left. reflexivity.
  - right. right. exact H.
Qed.

Lemma fold_max_In (ys : list Z) (y : Z) : In (fold_left Z.max ys y) (y :: ys).
Proof.
  revert y. induction ys as [|z ys IH]; intros y; [left; reflexivity|].
  cbn [fold_left]. destruct (IH (Z.max y z)) as [H | H].
  - rewrite <- H. destruct (Z.max_spec y z) as [[_ E] | [_ E]]; rewrite E.
    + right. left. reflexivity.
    + left. reflexivity.
  - right. right. exact H.
Qed.

Lemma years_iff (df : list car) (y : Z) :
  In y (years df) <-> exists c, In c df /\ Dashboard.year (listing c) = Some y.
Proof.
  unfold years. rewrite in_flat_map. split.
  - intros (c & Hc & Hy). exists c. split; [exact Hc|].
    destruct (Dashboard.year (listing c)) as [y'|]; [|contradiction].
    destruct Hy as [-> | []]. reflexivity.
  - intros (c & Hc & Hy). exists c. rewrite Hy. split; [exact Hc | left; reflexivity].
Qed.

(** X10: the default year range of the slider is tight: its two ends
    are the years of rows of the cleaned dataset, the lower end is not
    above the upper one, and the year of every row that has one lies
    between them. *)
Theorem year_range_bounds (df : list car) (lo hi : Z) :
  year_range true df = Ret (lo, hi) ->
  lo <= hi
  /\ (exists c, In c df /\ Dashboard.year (listing c) = Some lo)
  /\ (exists c, In c df /\ Dashboard.year (listing c) = Some hi)
  /\ (forall c y, In c df -> Dashboard.year (listing c) = Some y ->
        lo <= y <= hi).
Proof.
  unfold year_range. intros H.
  destruct (years df) as [|y0 ys] eqn:E; [discriminate H|].
  injection H as <- <-.
  pose proof (fold_min_In ys y0) as Hlo. pose proof (fold_max_In ys y0) as Hhi.
  rewrite <- E in Hlo, Hhi.
  assert (Hall : forall y, In y (y0 :: ys) ->
            fold_left Z.min ys y0 <= y <= fold_left Z.max ys y0).
  { intros y Hy. split; [apply fold_min_le | apply fold_max_ge]; exact Hy. }
  split; [|split; [|split]].
  - specialize (Hall y0 (or_introl eq_refl)). lia.
  - apply years_iff. exact Hlo.
  - apply years_iff. exact Hhi.
  - intros c y Hc Hy. apply Hall. rewrite <- E. apply years_iff. eauto.
Qed.

Lemma year_range_bounds_witness :
  2015 <= 2018
  /\ (exists c, In c [corolla_car; leaf_car; civic_car]
                /\ Dashboard.year (listing c) = Some 2015)
  /\ (exists c, In c [corolla_car; leaf_car; civic_car]
                /\ Dashboard.year (listing c) = Some 2018)
  /\ (forall c y, In c [corolla_car; leaf_car; civic_car] ->
        Dashboard.year (listing c) = Some y -> 2015 <= y <= 2018).
Proof.
  exact (@year_range_bounds [corolla_car; leaf_car; civic_car] 2015 2018 eq_refl).
Defined.

(** X11: with a [year] column the sidebar cannot be built exactly when
    no row of the cleaned dataset has a year, the empty dataset
    included: line 64 then raises [ValueError]; without the column
    nothing is raised and the range is (0, 9999). *)
Theorem year_range_raise_iff (has_year : bool) (df : list car) (e : exn) :
  (year_range has_year df = Raise e
   <-> has_year = true /\ e = ValueError
       /\ forall c, In c df -> Dashboard.year (listing c) = None)
  /\ year_range false df = Ret (0, 9999).
Proof.
  split; [|reflexivity].
  unfold year_range. destruct has_year.
  - destruct (years df) as [|y0 ys] eqn:E.
    + split.
      * intros H. injection H as <-. repeat split. intros c Hc.
        destruct (Dashboard.year (listing c)) as [y|] eqn:Ey; [|reflexivity].
        assert (In y (years df)) as Hy by (apply years_iff; eauto).
        rewrite E in Hy. contradiction.
      * intros (_ & -> & _). reflexivity.
    + split; [discriminate|]. intros (_ & _ & Hnone).
      assert (In y0 (years df)) as Hy by (rewrite E; left; reflexivity).
      apply years_iff in Hy. destruct Hy as (c & Hc & Hy).
      rewrite (Hnone c Hc) in Hy. discriminate Hy.
  - split; [discriminate | intros (H & _); discriminate H].
Qed.

Lemma year_range_raise_iff_witness :
  year_range true [leaf_car] = Raise ValueError.
Proof.
  apply (proj2 (proj1 (year_range_raise_iff true [leaf_car] ValueError))).
  repeat split. intros c [<- | []]. reflexivity.
Defined.

Lemma apply_filters_In (has_year : bool) (df : list car)
    (selected_brands : list (option str)) (selected_years : Z * Z) (c : car) :
  In c (apply_filters has_year df selected_brands selected_years)
  <-> In c df
      /\ In (brand c) selected_brands
      /\ (has_year = true ->
          exists y, Dashboard.year (listing c) = Some y
                    /\ fst selected_years <= y <= snd selected_years).
Proof.
  unfold apply_filters. destruct has_year.
  - rewrite !filter_In, isin_In. unfold year_between.
    destruct (Dashboard.year (listing c)) as [y|].
    + rewrite andb_true_iff, !Z.leb_le. split.
      * intros [[H1 H2] H3]. repeat split; auto. intros _. exists y. auto.
      * intros (H1 & H2 & H3). destruct (H3 eq_refl) as (y' & E & H4).
        injection E as <-. tauto.
    + split; [intros [_ H]; discriminate H|].
      intros (_ & _ & H). destruct (H eq_refl) as (y & E & _). discriminate E.
  - rewrite filter_In, isin_In. split; [|tauto].
    intros [H1 H2]. repeat split; auto. discriminate.
Qed.

(** X12: the filtered view holds exactly the rows of the cleaned dataset
    whose brand is one of the selected ones and, when the frame has a
    [year] column, whose year is present and within the selected range,
    both ends included. *)
Theorem filtered_rows (has_year : bool) (df : list car)
    (selected_brands : list (option str)) (lo hi : Z) (c : car) :
  In c (apply_filters has_year df selected_brands (lo, hi))
  <-> In c df
      /\ In (brand c) selected_brands
      /\ (has_year = true ->
          exists y, Dashboard.year (listing c) = Some y /\ lo <= y <= hi).
Proof. apply apply_filters_In. Qed.

Lemma filtered_rows_witness :
  In civic_car [corolla_car; leaf_car; civic_car]
  /\ In (brand civic_car) [Some (lit "Honda")]
  /\ (true = true ->
      exists y, Dashboard.year (listing civic_car) = Some y /\ 2016 <= y <= 2018).
Proof.
  apply (proj1 (filtered_rows true [corolla_car; leaf_car; civic_car]
                  [Some (lit "Honda")] 2016 2018 civic_car)).
  left. reflexivity.
Defined.

(** X13: widening the selection never loses a row: with more brands
    selected and a wider year range, every row of the old view is in
    the new one. *)
Theorem apply_filters_monotone (has_year : bool) (df : list car)
    (brands1 brands2 : list (option str)) (lo1 hi1 lo2 hi2 : Z) :
  incl brands1 brands2 -> lo2 <= lo1 -> hi1 <= hi2 ->
  incl (apply_filters has_year df brands1 (lo1, hi1))
       (apply_filters has_year df brands2 (lo2, hi2)).
Proof.
  intros Hb Hlo Hhi c. rewrite !apply_filters_In. cbn [fst snd].
  intros (H1 & H2 & H3). repeat split; auto.
  intros Hy. destruct (H3 Hy) as (y & E & H4). exists y. split; [exact E | lia].
Qed.

Lemma apply_filters_monotone_witness :
  In civic_car
    (apply_filters true [corolla_car; leaf_car; civic_car]
       [Some (lit "Toyota"); Some (lit "Honda")] (2015, 2018)).
Proof.
  refine (@apply_filters_monotone true [corolla_car; leaf_car; civic_car]
            [Some (lit "Honda")] [Some (lit "Toyota"); Some (lit "Honda")]
            2016 2018 2015 2018 _ _ _ civic_car _).
  - intros b [<- | []]. right. left. reflexivity.
  - discriminate.
  - discriminate.
  - left. reflexivity.
Defined.

Lemma brands_distinct_witness :
  NoDup (brands [corolla_car; leaf_car; civic_car]).
Proof. exact (proj1 (brands_distinct [corolla_car; leaf_car; civic_car])). Defined.

(** ** The metrics *)

Lemma filter_length {A : Type} (f : A -> bool) (l : list A) :
  (List.length (filter f l) <= List.length l)%nat.
Proof.
  induction l as [|a l IH]; simpl; [lia|]. destruct (f a); simpl; lia.
Qed.

Lemma f64_min_cases (p q : Q) :
  (f64_min (Fin p) (Fin q) = Fin p \/ f64_min (Fin p) (Fin q) = Fin q)
  /\ f64_le (f64_min (Fin p) (Fin q)) (Fin p) = true
  /\ f64_le (f64_min (Fin p) (Fin q)) (Fin q) = true.
Proof.
  unfold f64_min. simpl. destruct (Qle_bool p q) eqn:E; simpl.
  - rewrite E. split; [auto|]. split; [|reflexivity].
    apply Qle_bool_iff. apply Qle_refl.
  - split; [auto|]. split; apply Qle_bool_iff; [|apply Qle_refl].
    apply Qlt_le_weak, Qnot_le_lt. rewrite <- Qle_bool_iff, E. discriminate.
Qed.

Lemma f64_max_cases (p q : Q) :
  (f64_max (Fin p) (Fin q) = Fin p \/ f64_max (Fin p) (Fin q) = Fin q)
  /\ f64_le (Fin p) (f64_max (Fin p) (Fin q)) = true
  /\ f64_le (Fin q) (f64_max (Fin p) (Fin q)) = true.
Proof.
  unfold f64_max. simpl. destruct (Qle_bool p q) eqn:E; simpl.
  - rewrite E. split; [auto|]. split; [reflexivity|].
    apply Qle_bool_iff. apply Qle_refl.
  - split; [auto|]. split; apply Qle_bool_iff; [apply Qle_refl|].
    apply Qlt_le_weak, Qnot_le_lt. rewrite <- Qle_bool_iff, E. discriminate.
Qed.

Lemma f64_le_trans (x y z : f64) :
  f64_le x y = true -> f64_le y z = true -> f64_le x z = true.
Proof.
  destruct x as [| [] | p], y as [| [] | q], z as [| [] | r]; simpl;
    try congruence.
  rewrite !Qle_bool_iff. apply Qle_trans.
Qed.

Lemma fold_f64_min (l : list f64) (x : f64) :
  (forall y, In y (x :: l) -> is_fin y) ->
  In (fold_left f64_min l x) (x :: l)
  /\ forall y, In y (x :: l) -> f64_le (fold_left f64_min l x) y = true.
Proof.
  revert x. induction l as [|a l IH]; intros x Hfin.
  - split; [left; reflexivity|]. intros y [<- | []].
    destruct (Hfin x (or_introl eq_refl)) as [p ->].
    apply Qle_bool_iff, Qle_refl.
  - cbn [fold_left].
    destruct (Hfin x (or_introl eq_refl)) as [p ->].
    destruct (Hfin a (or_intror (or_introl eq_refl))) as [q ->].
    destruct (f64_min_cases p q) as (Hc & Hp & Hq).
    set (m := f64_min (Fin p) (Fin q)) in *.
    assert (Hm : is_fin m) by (destruct Hc as [-> | ->]; eexists; reflexivity).
    destruct (IH m) as [Hin Hle].
    { intros y [<- | Hy]; [exact Hm|]. apply Hfin. right. right. exact Hy. }
    split.
    + destruct Hin as [<- | Hin]; [|right; right; exact Hin].
      destruct Hc as [-> | ->]; [left | right; left]; reflexivity.
    + pose proof (Hle m (or_introl eq_refl)) as Hrm.
      intros y [<- | [<- | Hy]].
      * exact (f64_le_trans _ _ _ Hrm Hp).
      * exact (f64_le_trans _ _ _ Hrm Hq).
      * apply Hle. right. exact Hy.
Qed.

Lemma fold_f64_max (l : list f64) (x : f64) :
  (forall y, In y (x :: l) -> is_fin y) ->
  In (fold_left f64_max l x) (x :: l)
  /\ forall y, In y (x :: l) -> f64_le y (fold_left f64_max l x) = true.
Proof.
  revert x. induction l as [|a l IH]; intros x Hfin.
  - split; [left; reflexivity|]. intros y [<- | []].
    destruct (Hfin x (or_introl eq_refl)) as [p ->].
    apply Qle_bool_iff, Qle_refl.
  - cbn [fold_left].
    destruct (Hfin x (or_introl eq_refl)) as [p ->].
    destruct (Hfin a (or_intror (or_introl eq_refl))) as [q ->].
    destruct (f64_max_cases p q) as (Hc & Hp & Hq).
    set (m := f64_max (Fin p) (Fin q)) in *.
    assert (Hm : is_fin m) by (destruct Hc as [-> | ->]; eexists; reflexivity).
    destruct (IH m) as [Hin Hle].
    { intros y [<- | Hy]; [exact Hm|]. apply Hfin. right. right. exact Hy. }
    split.
    + destruct Hin as [<- | Hin]; [|right; right; exact Hin].
      destruct Hc as [-> | ->]; [left | right; left]; reflexivity.
    + pose proof (Hle m (or_introl eq_refl)) as Hrm.
      intros y [<- | [<- | Hy]].
      * exact (f64_le_trans _ _ _ Hp Hrm).
      * exact (f64_le_trans _ _ _ Hq Hrm).
      * apply Hle. right. exact Hy.
Qed.

Lemma dropna_fin (l : list f64) :
  (forall y, In y l -> is_fin y) -> filter (fun x => negb (isna x)) l = l.
Proof.
  intros H. apply forallb_filter_id, forallb_forall. intros y Hy.
  destruct (H y Hy) as [q ->]. reflexivity.
Qed.

(** The rows of a view of the cleaned dataset are rows of the cleaned
    dataset, with both range invariants. *)
Lemma view_rows (parse_number : cell -> option f64) (raw : list (row cell))
    (df : list car) (has_year : bool) (selected_brands : list (option str))
    (selected_years : Z * Z) (c : car) :
  clean parse_number raw = Ret df ->
  In c (apply_filters has_year df selected_brands selected_years) ->
  within 0 800000 (Dashboard.mileage (listing c))
  /\ (within 600 7000 (Dashboard.engine_capacity (listing c))
      \/ within 20 150 (Dashboard.engine_capacity (listing c))).
Proof.
  intros H Hc. apply apply_filters_In in Hc. destruct Hc as (Hc & _).
  apply (clean_In _ _ c H) in Hc. destruct Hc as (r & _ & _ & Hm & He).
  split; [apply mileage_in_range_iff | apply engine_capacity_in_range_iff];
    assumption.
Qed.

(** X14: whatever the selection, the two mileage metrics of the
    dashboard are mileages of rows it shows and bound the mileage of
    every such row; they lie in [0, 800000] with the minimum not above
    the maximum.  Over an empty view both are NaN and nothing is
    raised. *)
Theorem mileage_metrics (parse_number : cell -> option f64)
    (raw : list (row cell)) (df : list car) (has_year : bool)
    (selected_brands : list (option str)) (selected_years : Z * Z) :
  clean parse_number raw = Ret df ->
  let view := apply_filters has_year df selected_brands selected_years in
  (view = [] -> min_mileage view = NaN /\ max_mileage view = NaN)
  /\ (view <> [] ->
      within 0 800000 (min_mileage view)
      /\ within 0 800000 (max_mileage view)
      /\ f64_le (min_mileage view) (max_mileage view) = true
      /\ (exists c, In c view /\ Dashboard.mileage (listing c) = min_mileage view)
      /\ (exists c, In c view /\ Dashboard.mileage (listing c) = max_mileage view)
      /\ (forall c, In c view ->
            f64_le (min_mileage view) (Dashboard.mileage (listing c)) = true
            /\ f64_le (Dashboard.mileage (listing c)) (max_mileage view) = true)).
Proof.
  intros H view. split; [intros ->; split; reflexivity|]. intros Hne.
  assert (Hrows : forall c, In c view ->
            within 0 800000 (Dashboard.mileage (listing c))).
  { intros c Hc. exact (proj1 (view_rows _ _ _ _ _ _ H Hc)). }
  set (col := map (fun c => Dashboard.mileage (listing c)) view).
  assert (Hfin : forall y, In y col -> is_fin y).
  { intros y Hy. apply in_map_iff in Hy. destruct Hy as (c & <- & Hc).
    destruct (Hrows c Hc) as (q & -> & _). exists q. reflexivity. }
  unfold min_mileage, max_mileage, series_min, series_max. fold col.
  rewrite (@dropna_fin col Hfin).
  destruct col as [|x l] eqn:Ecol.
  { destruct view; [congruence | discriminate Ecol]. }
  destruct (@fold_f64_min l x Hfin) as [Hmin_in Hmin_le].
  destruct (@fold_f64_max l x Hfin) as [Hmax_in Hmax_le].
  assert (Hcol : forall y, In y (x :: l) ->
            exists c, In c view /\ Dashboard.mileage (listing c) = y).
  { intros y Hy. rewrite <- Ecol in Hy. apply in_map_iff in Hy.
    destruct Hy as (c & E & Hc). eauto. }
  split; [|split; [|split; [|split; [|split]]]].
  - destruct (Hcol _ Hmin_in) as (c & Hc & <-). apply Hrows. exact Hc.
  - destruct (Hcol _ Hmax_in) as (c & Hc & <-). apply Hrows. exact Hc.
  - apply Hmin_le. exact Hmax_in.
  - apply Hcol. exact Hmin_in.
  - apply Hcol. exact Hmax_in.
  - intros c Hc.
    assert (In (Dashboard.mileage (listing c)) (x :: l)) as Hy.
    { rewrite <- Ecol. unfold col.
      apply (in_map (fun c => Dashboard.mileage (listing c))). exact Hc. }
    split; [apply Hmin_le | apply Hmax_le]; exact Hy.
Qed.

(** X15: every row the dashboard shows kept both range invariants of the
    cleaning, and the "Total Cars" metric is at most the size of the
    cleaned dataset, itself at most the number of rows read. *)
Theorem view_invariants (parse_number : cell -> option f64)
    (raw : list (row cell)) (df : list car) (has_year : bool)
    (selected_brands : list (option str)) (selected_years : Z * Z) :
  clean parse_number raw = Ret df ->
  let view := apply_filters has_year df selected_brands selected_years in
  (forall c, In c view ->
     In c df
     /\ within 0 800000 (Dashboard.mileage (listing c))
     /\ (within 600 7000 (Dashboard.engine_capacity (listing c))
         \/ within 20 150 (Dashboard.engine_capacity (listing c))))
  /\ (total_cars view <= total_cars df)%nat
  /\ (total_cars df <= List.length raw)%nat.
Proof.
  intros H view. split; [|split].
  - intros c Hc. split.
    + apply apply_filters_In in Hc. tauto.
    + exact (view_rows _ _ _ _ _ _ H Hc).
  - unfold view, total_cars, apply_filters.
    pose proof (filter_length (fun c => isin (brand c) selected_brands) df).
    destruct has_year; [|assumption].
    pose proof (filter_length (year_between selected_years)
                  (filter (fun c => isin (brand c) selected_brands) df)).
    lia.
  - apply clean_prepared in H. destruct H as (_ & all & Hall & ->).
    apply mapM_Forall2, Forall2_length in Hall. rewrite Hall.
    apply filter_length.
Qed.

Lemma mileage_metrics_witness :
  within 0 800000 (min_mileage [corolla_car]).
Proof.
  refine (proj1 (proj2 (@mileage_metrics parse_plain (sample_frame ++ [leaf])
                          [corolla_car; leaf_car] true [Some (lit "Toyota")]
                          (2015, 2018) eq_refl) _)).
  discriminate.
Defined.

Lemma view_invariants_witness :
  (total_cars [corolla_car] <= total_cars [corolla_car; leaf_car])%nat
  /\ (total_cars [corolla_car; leaf_car] <= List.length (sample_frame ++ [leaf]))%nat.
Proof.
  exact (proj2 (@view_invariants parse_plain (sample_frame ++ [leaf])
                  [corolla_car; leaf_car] true [Some (lit "Toyota")]
                  (2015, 2018) eq_refl)).
Defined.

(** ** The brand chart *)

Lemma list_sum_perm (l l' : list nat) :
  Permutation l l' -> list_sum l = list_sum l'.
Proof. induction 1; simpl; lia. Qed.

Lemma list_sum_cons (x : nat) (l : list nat) :
  list_sum (x :: l) = (x + list_sum l)%nat.
Proof. reflexivity. Qed.

Lemma sum_indicator (ks : list str) (a : str) :
  NoDup ks -> In a ks ->
  list_sum (map (fun k => if list_eq_dec ascii_dec a k then 1 else 0)%nat ks) = 1%nat.
Proof.
  induction 1 as [|k ks Hk Hnd IH]; intros Ha; [contradiction|]. simpl.
  destruct (list_eq_dec ascii_dec a k) as [-> | Hne].
  - assert (list_sum (map (fun k' => if list_eq_dec ascii_dec k k' then 1 else 0)%nat ks) = 0%nat) as ->; [|reflexivity].
    clear IH Ha Hnd. induction ks as [|x ks IH]; [reflexivity|]. simpl.
    destruct (list_eq_dec ascii_dec k x) as [-> | _].
    + elim Hk. left. reflexivity.
    + apply IH. intros H. apply Hk. right. exact H.
  - destruct Ha as [-> | Ha]; [congruence|]. rewrite (IH Ha). reflexivity.
Qed.

Lemma sum_occurrences (ks col : list str) :
  NoDup ks -> (forall x, In x col -> In x ks) ->
  list_sum (map (fun k => occurrences k col) ks) = List.length col.
Proof.
  intros Hnd. unfold occurrences.
  induction col as [|a col IH]; intros Hin.
  - clear. induction ks as [|k ks IHk]; [reflexivity | exact IHk].
  - specialize (IH (fun x Hx => Hin x (or_intror Hx))).
    pose proof (@sum_indicator ks a Hnd (Hin a (or_introl eq_refl))) as H1.
    assert (E : list_sum (map (fun k => count_occ (list_eq_dec ascii_dec) (a :: col) k) ks)
                = (list_sum (map (fun k => if list_eq_dec ascii_dec a k then 1 else 0) ks)
                   + list_sum (map (fun k => count_occ (list_eq_dec ascii_dec) col k) ks))%nat).
    { clear. induction ks as [|k ks IHk]; [reflexivity|]. cbn [map].
      rewrite !list_sum_cons, IHk. simpl.
      destruct (list_eq_dec ascii_dec a k); lia. }
    unfold str in *. rewrite E, H1, IH. reflexivity.
Qed.

Lemma counts_fst (col : list str) :
  map fst (counts col) = nodup (list_eq_dec ascii_dec) col.
Proof. unfold counts. rewrite map_map. simpl. apply map_id. Qed.

Lemma counts_snd (col : list str) :
  list_sum (map snd (counts col)) = List.length col.
Proof.
  unfold counts. rewrite map_map. simpl. apply sum_occurrences.
  - apply NoDup_nodup.
  - intros x Hx. apply nodup_In. exact Hx.
Qed.

Lemma counts_In (col : list str) (b : str) (n : nat) :
  In (b, n) (counts col) <-> In b col /\ n = occurrences b col.
Proof.
  unfold counts. rewrite in_map_iff. split.
  - intros (k & E & Hk). injection E as -> <-. apply nodup_In in Hk. auto.
  - intros (Hb & ->). exists b. split; [reflexivity | apply nodup_In; exact Hb].
Qed.

Lemma present_brands_In (view : list car) (b : str) :
  In b (present_brands view) <-> exists c, In c view /\ brand c = Some b.
Proof.
  unfold present_brands. rewrite in_flat_map. split.
  - intros (c & Hc & Hb). exists c. split; [exact Hc|].
    destruct (brand c) as [b'|]; [|contradiction].
    destruct Hb as [-> | []]. reflexivity.
  - intros (c & Hc & E). exists c. rewrite E. split; [exact Hc | left; reflexivity].
Qed.

Lemma occurrences_rows (view : list car) (b : str) :
  occurrences b (present_brands view)
  = List.length (filter (fun c => brand_eqb (brand c) (Some b)) view).
Proof.
  unfold occurrences. induction view as [|c view IH]; [reflexivity|].
  cbn [present_brands flat_map filter]. fold (present_brands view).
  destruct (brand c) as [b'|]; simpl.
  - destruct (list_eq_dec ascii_dec b' b); simpl; rewrite IH; reflexivity.
  - exact IH.
Qed.

Lemma present_brands_length (view : list car) :
  (List.length (present_brands view) <= total_cars view)%nat.
Proof.
  unfold total_cars. induction view as [|c view IH]; [simpl; lia|].
  cbn [present_brands flat_map]. fold (present_brands view).
  rewrite length_app. destruct (brand c); simpl; lia.
Qed.

Lemma StronglySorted_app {A : Type} (R : A -> A -> Prop) (l1 l2 : list A) :
  StronglySorted R (l1 ++ l2) ->
  forall x y, In x l1 -> In y l2 -> R x y.
Proof.
  induction l1 as [|a l1 IH]; intros H x y Hx Hy; [contradiction|].
  simpl in H. apply StronglySorted_inv in H. destruct H as [Hs Hall].
  destruct Hx as [<- | Hx].
  - rewrite Forall_forall in Hall. apply Hall. apply in_or_app. auto.
  - apply (IH Hs); assumption.
Qed.

Lemma insert_count_perm (x : str * nat) (l : list (str * nat)) :
  Permutation (insert_count x l) (x :: l).
Proof.
  induction l as [|y l IH]; simpl; [reflexivity|].
  destruct (snd y <=? snd x)%nat; [reflexivity|].
  rewrite IH. apply perm_swap.
Qed.

Lemma insert_count_sorted (x : str * nat) (l : list (str * nat)) :
  StronglySorted (fun a b => (snd b <= snd a)%nat) l ->
  StronglySorted (fun a b => (snd b <= snd a)%nat) (insert_count x l).
Proof.
  induction 1 as [|y l Hs IH Hall]; simpl.
  - constructor; constructor.
  - destruct (snd y <=? snd x)%nat eqn:E.
    + apply Nat.leb_le in E. constructor; [constructor; assumption|].
      constructor; [exact E|].
      rewrite Forall_forall in *. intros z Hz. specialize (Hall z Hz). lia.
    + apply Nat.leb_gt in E. constructor; [exact IH|].
      rewrite Forall_forall in *. intros z Hz.
      apply (Permutation_in _ (insert_count_perm x l)) in Hz.
      destruct Hz as [<- | Hz]; [lia | apply Hall; exact Hz].
Qed.

(** The relation is met by an order of every table. *)
Lemma sorted_counts_is_value_counts (col : list str) :
  is_value_counts col (sorted_counts col).
Proof.
  unfold is_value_counts, sorted_counts.
  induction (counts col) as [|x l [IHp IHs]]; simpl.
  - split; constructor.
  - split.
    + rewrite insert_count_perm. constructor. exact IHp.
    + apply insert_count_sorted. exact IHs.
Qed.

(** X16: the table behind the brand chart lists each brand of the view
    once, with the number of rows of that brand, which is at least one;
    every brand that is present is listed; rows with a missing brand
    are not counted, so the counts add up to the number of rows whose
    brand is present, at most "Total Cars". *)
Theorem value_counts_table (view : list car) (vc : list (str * nat)) :
  is_value_counts (present_brands view) vc ->
  NoDup (map fst vc)
  /\ (forall b n, In (b, n) vc ->
        (1 <= n)%nat
        /\ n = List.length (filter (fun c => brand_eqb (brand c) (Some b)) view))
  /\ (forall c b, In c view -> brand c = Some b -> exists n, In (b, n) vc)
  /\ list_sum (map snd vc) = List.length (present_brands view)
  /\ (list_sum (map snd vc) <= total_cars view)%nat.
Proof.
  intros [Hp _]. split; [|split; [|split; [|split]]].
  - apply (Permutation_NoDup (l := map fst (counts (present_brands view)))).
    + apply Permutation_map. symmetry. exact Hp.
    + rewrite counts_fst. apply NoDup_nodup.
  - intros b n Hb. apply (Permutation_in _ Hp) in Hb.
    apply counts_In in Hb. destruct Hb as [Hb ->]. split.
    + unfold occurrences.
      apply (count_occ_In (list_eq_dec ascii_dec)) in Hb. lia.
    + apply occurrences_rows.
  - intros c b Hc E. exists (occurrences b (present_brands view)).
    apply (Permutation_in _ (Permutation_sym Hp)). apply counts_In.
    split; [|reflexivity]. apply present_brands_In. eauto.
  - rewrite <- counts_snd. apply list_sum_perm, Permutation_map. exact Hp.
  - rewrite (list_sum_perm (Permutation_map snd Hp)), counts_snd.
    apply present_brands_length.
Qed.

Lemma value_counts_table_witness :
  NoDup (map fst (sorted_counts (present_brands [corolla_car; leaf_car; civic_car]))).
Proof.
  exact (proj1 (@value_counts_table [corolla_car; leaf_car; civic_car] _
                  (sorted_counts_is_value_counts _))).
Defined.

(** X17: the chart shows at most ten brands; no brand left out of it
    has more rows than a brand shown; with ten brands or fewer none is
    left out. *)
Theorem top_brands_dominate (col : list str) (vc : list (str * nat)) :
  is_value_counts col vc ->
  (List.length (top_brands vc) <= 10)%nat
  /\ (forall x y, In x (top_brands vc) -> In y vc -> ~ In y (top_brands vc) ->
        (snd y <= snd x)%nat)
  /\ ((List.length vc <= 10)%nat -> top_brands vc = vc).
Proof.
  intros [_ Hs]. unfold top_brands. split; [apply firstn_le_length|]. split.
  - intros x y Hx Hy Hny. rewrite <- (firstn_skipn 10 vc) in Hs, Hy.
    apply in_app_or in Hy. destruct Hy as [Hy | Hy]; [contradiction|].
    exact (StronglySorted_app _ _ Hs x y Hx Hy).
  - apply firstn_all2.
Qed.

Lemma top_brands_dominate_witness :
  top_brands (sorted_counts (present_brands [corolla_car; leaf_car; civic_car]))
  = sorted_counts (present_brands [corolla_car; leaf_car; civic_car]).
Proof.
  refine (proj2 (proj2 (top_brands_dominate (sorted_counts_is_value_counts _))) _).
  apply Nat.leb_le. reflexivity.
Defined.

(** ** Column names, continued *)

Lemma lstrip_app_space (ws y : str) :
  (forall c, In c ws -> isspace c = true) -> lstrip (ws ++ y) = lstrip y.
Proof.
  induction ws as [|c ws IH]; intros H; [reflexivity|]. simpl.
  rewrite (H c (or_introl eq_refl)). apply IH.
  intros x Hx. apply H. right. exact Hx.
Qed.

Lemma lstrip_space (ws : str) :
  (forall c, In c ws -> isspace c = true) -> lstrip ws = [].
Proof.
  intros H. rewrite <- (app_nil_r ws). rewrite (lstrip_app_space ws [] H).
  reflexivity.
Qed.

Lemma lstrip_nil (x : str) :
  lstrip x = [] -> forall c, In c x -> isspace c = true.
Proof.
  induction x as [|a x IH]; intros H c Hc; [contradiction|]. simpl in H.
  destruct (isspace a) eqn:Ea; [|discriminate H].
  destruct Hc as [<- | Hc]; [exact Ea | exact (IH H c Hc)].
Qed.

Lemma lstrip_app (x y : str) : lstrip x <> [] -> lstrip (x ++ y) = lstrip x ++ y.
Proof.
  induction x as [|a x IH]; intros H; [elim H; reflexivity|]. simpl in *.
  destruct (isspace a); [apply IH; exact H | reflexivity].
Qed.

Lemma strip_surrounded (ws1 x ws2 : str) :
  (forall c, In c ws1 -> isspace c = true) ->
  (forall c, In c ws2 -> isspace c = true) ->
  strip (ws1 ++ x ++ ws2) = strip x.
Proof.
  intros H1 H2. unfold strip. rewrite (lstrip_app_space ws1 _ H1).
  destruct (lstrip x) as [|a x'] eqn:E.
  - rewrite (lstrip_app_space x ws2 (lstrip_nil x E)), (lstrip_space ws2 H2).
    reflexivity.
  - rewrite lstrip_app by congruence. rewrite E, rev_app_distr.
    rewrite lstrip_app_space; [reflexivity|].
    intros c Hc. apply H2. apply in_rev. exact Hc.
Qed.

(** X18: whitespace around a column label never shows in the normalized
    name: a label and the same label with whitespace characters of any
    kind before and after it are normalized to the same name. *)
Theorem normalize_surrounding_whitespace (ws1 x ws2 : str) :
  (forall c, In c ws1 -> isspace c = true) ->
  (forall c, In c ws2 -> isspace c = true) ->
  LoadToDb.normalize (ws1 ++ x ++ ws2) = LoadToDb.normalize x.
Proof.
  intros H1 H2. unfold LoadToDb.normalize.
  rewrite (strip_surrounded ws1 x ws2 H1 H2). reflexivity.
Qed.

Lemma normalize_surrounding_whitespace_witness :
  LoadToDb.normalize (lit "  " ++ lit "Body Type" ++ ["009"%char; " "%char])
  = LoadToDb.normalize (lit "Body Type").
Proof.
  apply normalize_surrounding_whitespace; intros c Hc; simpl in Hc;
    repeat (destruct Hc as [<- | Hc]; [reflexivity|]); contradiction.
Defined.

(** ** The insert loop, continued *)

Lemma py_float_exn (parse_float : str -> option f64) (x : LoadToDb.filled) (e : exn) :
  LoadToDb.py_float parse_float x = Raise e -> e = ValueError \/ e = OverflowError.
Proof.
  destruct x as [[s | z | y] | b]; simpl.
  - destruct (parse_float s); [discriminate|]. intros H. injection H as <-. auto.
  - destruct (float64_overflows z); [|discriminate].
    intros H. injection H as <-. auto.
  - discriminate.
  - discriminate.
Qed.

Lemma py_int_exn (parse_int : str -> option Z) (x : LoadToDb.filled) (e : exn) :
  LoadToDb.py_int parse_int x = Raise e -> e = ValueError \/ e = OverflowError.
Proof.
  destruct x as [[s | z | [ | b | q]] | b]; simpl; try discriminate.
  - destruct (parse_int s); [discriminate|]. intros H. injection H as <-. auto.
  - intros H. injection H as <-. auto.
  - intros H. injection H as <-. auto.
Qed.

(** [float] raises on the cell the loop sees only where the cell read
    from the file is a text it does not read. *)
Lemma py_float_seen_raise (parse_float : str -> option f64) (up : bool)
    (dt : dtype) (c : cell) :
  (forall z, c = VInt z -> float64_overflows z = false) ->
  (exists e, LoadToDb.py_float parse_float (seen up dt c) = Raise e)
  <-> exists t, c = VStr t /\ parse_float t = None.
Proof.
  intros Hfit. unfold seen. destruct c as [s | z | x].
  - simpl. destruct (parse_float s) eqn:E.
    + split; [intros [e H]; discriminate H|].
      intros (t & Ht & Hn). injection Ht as <-. congruence.
    + split; [intros _; eauto | intros _; eauto].
  - split; [|intros (t & Ht & _); discriminate Ht].
    intros [e H]. simpl in H.
    destruct dt, up; simpl in H; try discriminate H;
      rewrite (Hfit z eq_refl) in H; discriminate H.
  - split; [|intros (t & Ht & _); discriminate Ht].
    intros [e H]. destruct x; simpl in H; discriminate H.
Qed.

(** [int] raises on the year the loop sees only where the year read
    from the file is a text it does not read, or infinite. *)
Lemma py_int_seen_raise (parse_int : str -> option Z) (up : bool)
    (dt : dtype) (c : cell) :
  (exists e, LoadToDb.py_int parse_int (seen up dt c) = Raise e)
  <-> (exists t, c = VStr t /\ parse_int t = None)
      \/ (exists b, c = VFloat (Inf b)).
Proof.
  unfold seen. destruct c as [s | z | x].
  - simpl. destruct (parse_int s) eqn:E.
    + split; [intros [e H]; discriminate H|].
      intros [(t & Ht & Hn) | (b & Hb)]; [|discriminate Hb].
      injection Ht as <-. congruence.
    + split; [intros _; left; eauto | intros _; eauto].
  - split.
    + intros [e H]. simpl in H. destruct dt, up; simpl in H; discriminate H.
    + intros [(t & Ht & _) | (b & Hb)]; [discriminate Ht | discriminate Hb].
  - destruct x as [ | b | q]; simpl.
    + split; [intros [e H]; discriminate H|].
      intros [(t & Ht & _) | (b & Hb)]; [discriminate Ht | discriminate Hb].
    + split; [intros _; right; eauto | intros _; eauto].
    + split; [intros [e H]; discriminate H|].
      intros [(t & Ht & _) | (b & Hb)]; [discriminate Ht | discriminate Hb].
Qed.

(** The parameters of an insert raise exactly when one of the four
    conversions does. *)
Lemma insert_params_raise (parse_float : str -> option f64)
    (parse_int : str -> option Z) (repr_float : f64 -> str)
    (row : LoadToDb.filled_row) :
  (exists e, LoadToDb.insert_params parse_float parse_int repr_float row = Raise e)
  <-> (exists e, LoadToDb.py_float parse_float (LoadToDb.price row) = Raise e)
      \/ (exists e, LoadToDb.py_int parse_int (LoadToDb.year row) = Raise e)
      \/ (exists e, LoadToDb.py_float parse_float (LoadToDb.mileage row) = Raise e)
      \/ (exists e, LoadToDb.py_float parse_float (LoadToDb.engine_capacity row)
                    = Raise e).
Proof.
  unfold LoadToDb.insert_params.
  destruct (LoadToDb.py_float parse_float (LoadToDb.price row)) as [p|e1];
    cbn [bind]; [|split; intros _; eauto].
  destruct (LoadToDb.py_int parse_int (LoadToDb.year row)) as [y|e2];
    cbn [bind]; [|split; intros _; eauto].
  destruct (LoadToDb.py_float parse_float (LoadToDb.mileage row)) as [m|e3];
    cbn [bind]; [|split; intros _; eauto 6].
  destruct (LoadToDb.py_float parse_float (LoadToDb.engine_capacity row)) as [c|e4];
    cbn [bind]; [|split; intros _; eauto 6].
  split.
  - intros [e H]. discriminate H.
  - intros [[e H] | [[e H] | [[e H] | [e H]]]]; discriminate H.
Qed.

Lemma insert_params_exn (parse_float : str -> option f64)
    (parse_int : str -> option Z) (repr_float : f64 -> str)
    (row : LoadToDb.filled_row) (e : exn) :
  LoadToDb.insert_params parse_float parse_int repr_float row = Raise e ->
  e = ValueError \/ e = OverflowError.
Proof.
  unfold LoadToDb.insert_params.
  destruct (LoadToDb.py_float parse_float (LoadToDb.price row)) as [p|e1] eqn:E1;
    cbn [bind];
    [|intros H; injection H as <-; exact (py_float_exn _ _ E1)].
  destruct (LoadToDb.py_int parse_int (LoadToDb.year row)) as [y|e2] eqn:E2;
    cbn [bind];
    [|intros H; injection H as <-; exact (py_int_exn _ _ E2)].
  destruct (LoadToDb.py_float parse_float (LoadToDb.mileage row)) as [m|e3] eqn:E3;
    cbn [bind];
    [|intros H; injection H as <-; exact (py_float_exn _ _ E3)].
  destruct (LoadToDb.py_float parse_float (LoadToDb.engine_capacity row))
    as [c|e4] eqn:E4; cbn [bind];
    [|intros H; injection H as <-; exact (py_float_exn _ _ E4)].
  discriminate.
Qed.

(** The conversions raise on a row exactly when the row is
    unreadable. *)
Lemma row_raise_unreadable (parse_float : str -> option f64)
    (parse_int : str -> option Z) (repr_float : f64 -> str)
    (df : list LoadToDb.csv_row) (r : LoadToDb.csv_row) :
  fits r ->
  (exists e, LoadToDb.insert_params parse_float parse_int repr_float
               (LoadToDb.row_values (LoadToDb.upcasts (LoadToDb.dtypes df))
                  (LoadToDb.fillna_row (LoadToDb.dtypes df) r)) = Raise e)
  <-> unreadable parse_float parse_int r.
Proof.
  intros Hfit. rewrite insert_params_raise.
  destruct (seen_fields df r) as (_ & Sf & Sy). cbv zeta in Sf, Sy.
  assert (Hcol : forall col, In col LoadToDb.float_columns ->
            (exists e, LoadToDb.py_float parse_float
                         (col _ _ _ (LoadToDb.row_values
                                       (LoadToDb.upcasts (LoadToDb.dtypes df))
                                       (LoadToDb.fillna_row (LoadToDb.dtypes df) r)))
                       = Raise e)
            <-> exists t, col _ _ _ r = VStr t /\ parse_float t = None).
  { intros col Hc. rewrite (Sf col Hc). apply py_float_seen_raise.
    intros z Hz. exact (Hfit col z Hc Hz). }
  assert (Hp := Hcol (@LoadToDb.price) (or_introl eq_refl)).
  assert (Hm := Hcol (@LoadToDb.mileage) (or_intror (or_introl eq_refl))).
  assert (Hc := Hcol (@LoadToDb.engine_capacity)
                  (or_intror (or_intror (or_introl eq_refl)))).
  rewrite Hp, Hm, Hc, Sy, py_int_seen_raise. unfold unreadable. split.
  - intros [(t & Ht & Hn) | [[(t & Ht & Hn) | (b & Hb)]
                            | [(t & Ht & Hn) | (t & Ht & Hn)]]].
    + left. exists (@LoadToDb.price), t. simpl. auto.
    + right. left. eauto.
    + right. right. eauto.
    + left. exists (@LoadToDb.mileage), t. simpl. auto.
    + left. exists (@LoadToDb.engine_capacity), t. simpl. auto.
  - intros [(col & t & Hin & Ht & Hn) | [(t & Ht & Hn) | (b & Hb)]].
    + simpl in Hin. destruct Hin as [<- | [<- | [<- | []]]].
      * left. eauto.
      * right. right. left. eauto.
      * right. right. right. eauto.
    + right. left. left. eauto.
    + right. left. right. eauto.
Qed.

(** The loop raises exactly when some row of the frame is unreadable. *)
Lemma load_raise_unreadable (parse_float : str -> option f64)
    (parse_int : str -> option Z) (repr_float : f64 -> str)
    (df : list LoadToDb.csv_row) :
  (forall r, In r df -> fits r) ->
  (exists e, LoadToDb.load parse_float parse_int repr_float df = Raise e)
  <-> exists r, In r df /\ unreadable parse_float parse_int r.
Proof.
  intros Hfit. unfold LoadToDb.load, LoadToDb.iterrows, LoadToDb.fillna.
  rewrite map_map. split.
  - intros [e H]. apply mapM_raise in H. destruct H as (row & Hrow & H).
    apply in_map_iff in Hrow. destruct Hrow as (r & <- & Hr).
    exists r. split; [exact Hr|].
    apply (row_raise_unreadable parse_float parse_int repr_float df (Hfit r Hr)).
    eauto.
  - intros (r & Hr & Hu).
    apply (row_raise_unreadable parse_float parse_int repr_float df (Hfit r Hr))
      in Hu.
    destruct Hu as [e He].
    eapply mapM_raises; [|exact He].
    apply in_map_iff. exists r. auto.
Qed.

(** X19: a value that is present is stored as it was read: a text as
    that text, a float as that float, an integer of a floating-point
    column as the float of the same value and an integer year as that
    integer (integers below 2^53, which a float holds exactly). *)
Theorem present_values_stored (parse_float : str -> option f64)
    (parse_int : str -> option Z) (repr_float : f64 -> str)
    (df : list LoadToDb.csv_row) (out : list LoadToDb.stored_row) :
  LoadToDb.load parse_float parse_int repr_float df = Ret out ->
  Forall2 kept_as_read df out.
Proof.
  intros H. apply load_rows in H.
  eapply Forall2_impl; [|exact H]. clear out H. intros r s H.
  apply insert_params_fields in H. destruct H as (Ht & Hf & Hy).
  destruct (seen_fields df r) as (St & Sf & Sy). cbv zeta in St, Sf, Sy.
  unfold kept_as_read. split; [|split; [|split]].
  - intros col t Hcol Hr. rewrite (Ht col Hcol), (St col Hcol), Hr. reflexivity.
  - intros col x Hcol Hr Hx. specialize (Hf col Hcol).
    rewrite (Sf col Hcol), Hr in Hf. unfold seen in Hf.
    destruct x as [ | b | q]; [elim Hx; reflexivity | |];
      simpl in Hf; injection Hf as <-; reflexivity.
  - intros col z Hcol Hr Hz. specialize (Hf col Hcol).
    rewrite (Sf col Hcol), Hr in Hf. unfold seen in Hf. simpl in Hf.
    destruct (dtype_of (map (col _ _ _) df)),
             (LoadToDb.upcasts (LoadToDb.dtypes df)); simpl in Hf;
      rewrite ?(small_no_overflow z Hz) in Hf; injection Hf as <-;
      apply to_double_small; exact Hz.
  - intros y Hr Hz. rewrite Sy, Hr in Hy. unfold seen in Hy. simpl in Hy.
    destruct (dtype_of (map (@LoadToDb.year _ _ _) df)),
             (LoadToDb.upcasts (LoadToDb.dtypes df)); simpl in Hy;
      unfold to_double in Hy; rewrite ?(round_double_small y Hz) in Hy;
      simpl in Hy; injection Hy as <-;
      first [reflexivity | apply Z.quot_1_r].
Qed.

Lemma present_values_stored_witness :
  Forall2 kept_as_read [untitled; listed] [untitled_stored; listed_stored].
Proof.
  exact (@present_values_stored plain_float plain_digits plain_repr
           [untitled; listed] [untitled_stored; listed_stored] eq_refl).
Defined.

(** X21: on a frame whose integers fit a float the insert loop raises
    exactly when some row holds, in a numeric column, a text that
    [float] (price, mileage, engine capacity) or [int] (year) does not
    read, or an infinite year; a missing value never makes it raise.
    What it raises is [ValueError] or [OverflowError]. *)
Theorem load_raise_iff (parse_float : str -> option f64)
    (parse_int : str -> option Z) (repr_float : f64 -> str)
    (df : list LoadToDb.csv_row) :
  (forall r, In r df -> fits r) ->
  ((exists e, LoadToDb.load parse_float parse_int repr_float df = Raise e)
   <-> exists r, In r df /\ unreadable parse_float parse_int r)
  /\ (forall e, LoadToDb.load parse_float parse_int repr_float df = Raise e ->
        e = ValueError \/ e = OverflowError).
Proof.
  intros Hfit. split.
  - apply load_raise_unreadable. exact Hfit.
  - intros e H. unfold LoadToDb.load in H. apply mapM_raise in H.
    destruct H as (row & _ & H). exact (insert_params_exn _ _ _ _ H).
Qed.

Lemma fits_listed : fits listed.
Proof.
  intros col z Hcol Hz. simpl in Hcol.
  destruct Hcol as [<- | [<- | [<- | []]]]; simpl in Hz;
    try discriminate Hz; injection Hz as <-; reflexivity.
Qed.

Lemma fits_untitled : fits untitled.
Proof.
  intros col z Hcol Hz. simpl in Hcol.
  destruct Hcol as [<- | [<- | [<- | []]]]; simpl in Hz;
    try discriminate Hz; injection Hz as <-; reflexivity.
Qed.

Lemma fits_with_unit : fits with_unit.
Proof.
  intros col z Hcol Hz. simpl in Hcol.
  destruct Hcol as [<- | [<- | [<- | []]]]; simpl in Hz;
    try discriminate Hz; injection Hz as <-; reflexivity.
Qed.

Lemma load_raise_iff_witness :
  exists e, LoadToDb.load plain_float plain_digits plain_repr [listed; with_unit]
            = Raise e.
Proof.
  assert (Hfit : forall r, In r [listed; with_unit] -> fits r).
  { intros r [<- | [<- | []]]; [exact fits_listed | exact fits_with_unit]. }
  apply (proj2 (proj1 (@load_raise_iff plain_float plain_digits plain_repr
                        [listed; with_unit] Hfit))).
  exists with_unit. split; [right; left; reflexivity|].
  left. exists (@LoadToDb.engine_capacity), (lit "1300cc").
  split; [right; right; left; reflexivity|]. split; reflexivity.
Defined.

(** X22: on a frame whose integers fit a float and whose numeric
    columns hold no unreadable value the loop runs to its end and
    stores one row for each row of the file, in the order of the file:
    the parameters computed from that row. *)
Theorem load_returns (parse_float : str -> option f64)
    (parse_int : str -> option Z) (repr_float : f64 -> str)
    (df : list LoadToDb.csv_row) :
  (forall r, In r df -> fits r) ->
  (forall r, In r df -> ~ unreadable parse_float parse_int r) ->
  exists out,
    LoadToDb.load parse_float parse_int repr_float df = Ret out
    /\ List.length out = List.length df
    /\ Forall2 (fun r s =>
                  LoadToDb.insert_params parse_float parse_int repr_float
                    (LoadToDb.row_values (LoadToDb.upcasts (LoadToDb.dtypes df))
                       (LoadToDb.fillna_row (LoadToDb.dtypes df) r)) = Ret s)
         df out.
Proof.
  intros Hfit Hok.
  destruct (LoadToDb.load parse_float parse_int repr_float df) as [out|e] eqn:E.
  - exists out. split; [reflexivity|]. apply load_rows in E.
    split; [symmetry; exact (Forall2_length E) | exact E].
  - assert (exists e, LoadToDb.load parse_float parse_int repr_float df = Raise e)
      as H by eauto.
    apply (@load_raise_unreadable parse_float parse_int repr_float df Hfit) in H.
    destruct H as (r & Hr & Hu). elim (Hok r Hr Hu).
Qed.

Lemma readable_untitled : ~ unreadable plain_float plain_digits untitled.
Proof.
  intros [(col & t & Hcol & Hc & _) | [(t & Hy & _) | (b & Hy)]].
  - simpl in Hcol. destruct Hcol as [<- | [<- | [<- | []]]]; discriminate Hc.
  - discriminate Hy.
  - discriminate Hy.
Qed.

Lemma readable_listed : ~ unreadable plain_float plain_digits listed.
Proof.
  intros [(col & t & Hcol & Hc & _) | [(t & Hy & _) | (b & Hy)]].
  - simpl in Hcol. destruct Hcol as [<- | [<- | [<- | []]]]; discriminate Hc.
  - discriminate Hy.
  - discriminate Hy.
Qed.

Lemma load_returns_witness :
  exists out,
    LoadToDb.load plain_float plain_digits plain_repr [untitled; listed] = Ret out
    /\ List.length out = 2%nat.
Proof.
  destruct (@load_returns plain_float plain_digits plain_repr [untitled; listed])
    as (out & Hout & Hlen & _); [| |exists out; split; [exact Hout | exact Hlen]].
  - intros r [<- | [<- | []]]; [exact fits_untitled | exact fits_listed].
  - intros r [<- | [<- | []]]; [exact readable_untitled | exact readable_listed].
Defined.
